(** * The Outlier Excluder: aggregation, selection, pattern and persistence

    A shallow embedding of [App-Starter/app_completed.py]: the ACPH
    aggregation of [load_data], the curve [actuarial_curve], and the server
    functions [filtered_data], [exclusion_grid], [fitted_curve], [main_plot]
    and [save].

    Conventions of the embedding.
    - A polars frame is the list of its rows, a row is a record of its
      columns; [pl.DataFrame()] is the empty list.  Null cells are not
      modelled.
    - Integer columns (PolicyID, CohortYear, DevYear, NumHomes) are [Z],
      without the wrap-around of a fixed width.
    - Float columns are [f64]: exact rationals extended with the IEEE special
      values, so that a division by zero yields an infinity or a NaN instead
      of raising, as polars does.  Rounding and overflow are not modelled.
    - A Python exception is the [Raise] constructor of [result].
    - The reactive inputs [input.product()] and
      [input.exclusion_grid_selected_rows()] are explicit arguments; the
      least-squares solver [scipy.optimize.curve_fit] is a section variable,
      and every call to it is recorded in the outcome of [fitted_curve]. *)

From Stdlib Require Import List ZArith QArith Qreduction Bool Lia Lra.
From Stdlib Require Import String Ascii DecimalString.
From Stdlib Require Import Sorted Permutation.
From Stdlib Require OrderedTypeEx.
From Stdlib Require Import Reals.
Import ListNotations.

Local Open Scope string_scope.
Local Open Scope list_scope.
Local Open Scope Z_scope.

(** ** Exceptions *)

Inductive exn : Type :=
| IndexError
| FileNotFoundError
| KeyError
| TypeError.

Inductive result (A : Type) : Type :=
| Return (a : A)
| Raise (e : exn).

Arguments Return {A} a.
Arguments Raise {A} e.

Definition bind {A B : Type} (m : result A) (k : A -> result B) : result B :=
  match m with
  | Return a => k a
  | Raise e => Raise e
  end.

Notation "x <- m ;; k" := (bind m (fun x => k))
  (at level 61, m at next level, right associativity).
Notation "' p <- m ;; k" := (bind m (fun x => match x with p => k end))
  (at level 61, p pattern, m at next level, right associativity).

(** ** Float columns *)

Inductive f64 : Type :=
| Fin (q : Q)
| PInf
| NInf
| NaN.

Definition fadd (x y : f64) : f64 :=
  match x, y with
  | NaN, _ | _, NaN => NaN
  | PInf, NInf | NInf, PInf => NaN
  | PInf, _ | _, PInf => PInf
  | NInf, _ | _, NInf => NInf
  | Fin a, Fin b => Fin (Qred (a + b))
  end.

(** [x / n] for a float [x] and an integer column value [n] (cast to float
    by polars before the division). *)
Definition fdiv (x : f64) (n : Z) : f64 :=
  match x with
  | NaN => NaN
  | PInf => if n <? 0 then NInf else PInf
  | NInf => if n <? 0 then PInf else NInf
  | Fin q =>
      if n =? 0 then
        match Qcompare q 0 with
        | Eq => NaN
        | Gt => PInf
        | Lt => NInf
        end
      else Fin (Qred (q / inject_Z n))
  end.

(** [pl.col(c).sum()] on a float column: left to right from 0. *)
Definition fsum (l : list f64) : f64 := fold_left fadd l (Fin 0).

(** [pl.col(c).sum()] on an integer column. *)
Definition zsum (l : list Z) : Z := fold_left Z.add l 0.

(** [pl.col(c).mean()]: the sum over the count. *)
Definition fmean (l : list f64) : f64 := fdiv (fsum l) (Z.of_nat (List.length l)).

(** ** Frame operations of polars *)

Module Polars.
Section Generic.
Context {A B C K : Type}.
Variable eqb : K -> K -> bool.

(** [left.join(right, on=...)], an inner join: every left row paired with
    every right row of the same key. *)
Definition join (kl : A -> K) (kr : B -> K) (mk : A -> B -> C)
    (left : list A) (right : list B) : list C :=
  flat_map
    (fun a => map (mk a) (filter (fun b => eqb (kl a) (kr b)) right))
    left.

Fixpoint add_to_group (k : K) (a : A) (gs : list (K * list A))
    : list (K * list A) :=
  match gs with
  | [] => [(k, [a])]
  | (k', g) :: gs' =>
      if eqb k k' then (k', g ++ [a]) :: gs'
      else (k', g) :: add_to_group k a gs'
  end.

(** [df.group_by(key)]: one group per distinct key, each holding its rows
    in frame order. *)
Definition group_by (key : A -> K) (l : list A) : list (K * list A) :=
  fold_left (fun gs a => add_to_group (key a) a gs) l [].

(** The group stored under a key, if any. *)
Fixpoint group_of (k : K) (gs : list (K * list A)) : option (list A) :=
  match gs with
  | [] => None
  | (k', g) :: gs' => if eqb k k' then Some g else group_of k gs'
  end.

Variable leb : A -> A -> bool.

Fixpoint insert (x : A) (l : list A) : list A :=
  match l with
  | [] => [x]
  | y :: l' => if leb x y then x :: l else y :: insert x l'
  end.

(** [df.sort(columns)] for the order [leb] on rows. *)
Definition sort (l : list A) : list A := fold_right insert [] l.

(** [df.filter(pl.Series(mask))]: the rows whose mask entry is true. *)
Fixpoint filter_mask (l : list A) (mask : list bool) : list A :=
  match l, mask with
  | a :: l', b :: mask' =>
      if b then a :: filter_mask l' mask' else filter_mask l' mask'
  | _, _ => []
  end.
End Generic.
End Polars.

(** ** The source datasets and the frames of [load_data] *)

Record Date : Type := { year : Z; month : Z; day : Z }.

Module Policy.
Record t : Type :=
  { PolicyID : Z; CohortYear : Z; ProductType : string; NumHomes : Z }.
End Policy.

Module Claim.
Record t : Type :=
  { PolicyID : Z; ReportDate : Date; PaymentAmount : f64 }.
End Claim.

Module Exposure.
Record t : Type := { CohortYear : Z; TotalHomes : Z }.
End Exposure.

(** A claim joined to its policy, with the DevYear column added. *)
Module ClaimDev.
Record t : Type :=
  { PolicyID : Z; ReportDate : Date; PaymentAmount : f64;
    CohortYear : Z; ProductType : string; DevYear : Z }.
End ClaimDev.

Module Dev.
Record t : Type :=
  { CohortYear : Z; DevYear : Z; ProductType : string; TotalClaims : f64 }.
End Dev.

Module ACPHRow.
Record t : Type :=
  { CohortYear : Z; DevYear : Z; ProductType : string;
    TotalClaims : f64; TotalHomes : Z; ACPH : f64 }.
End ACPHRow.

Definition key3 : Type := (Z * Z * string)%type.

Definition key3_eqb (a b : key3) : bool :=
  let '(c1, d1, p1) := a in
  let '(c2, d2, p2) := b in
  (c1 =? c2) && (d1 =? d2) && String.eqb p1 p2.

(** The order of [.sort(["ProductType", "CohortYear", "DevYear"])]. *)
Definition acph_leb (r1 r2 : ACPHRow.t) : bool :=
  match String.compare (ACPHRow.ProductType r1) (ACPHRow.ProductType r2) with
  | Lt => true
  | Gt => false
  | Eq =>
      if ACPHRow.CohortYear r1 <? ACPHRow.CohortYear r2 then true
      else if ACPHRow.CohortYear r2 <? ACPHRow.CohortYear r1 then false
      else ACPHRow.DevYear r1 <=? ACPHRow.DevYear r2
  end.

(** 1. Exposure *)
Definition exposure (df_policies : list Policy.t) : list Exposure.t :=
  map (fun '(c, g) =>
         {| Exposure.CohortYear := c;
            Exposure.TotalHomes := zsum (map Policy.NumHomes g) |})
      (Polars.group_by Z.eqb Policy.CohortYear df_policies).

(** 2. Claims Dev *)
Definition claim_dev (c : Claim.t) (p : Policy.t) : ClaimDev.t :=
  {| ClaimDev.PolicyID := Claim.PolicyID c;
     ClaimDev.ReportDate := Claim.ReportDate c;
     ClaimDev.PaymentAmount := Claim.PaymentAmount c;
     ClaimDev.CohortYear := Policy.CohortYear p;
     ClaimDev.ProductType := Policy.ProductType p;
     ClaimDev.DevYear := year (Claim.ReportDate c) - Policy.CohortYear p |}.

Definition dev_key (j : ClaimDev.t) : key3 :=
  (ClaimDev.CohortYear j, ClaimDev.DevYear j, ClaimDev.ProductType j).

Definition claims_dev (df_policies : list Policy.t) (df_claims : list Claim.t)
    : list Dev.t :=
  map (fun '((c, d, p), g) =>
         {| Dev.CohortYear := c; Dev.DevYear := d; Dev.ProductType := p;
            Dev.TotalClaims := fsum (map ClaimDev.PaymentAmount g) |})
      (Polars.group_by key3_eqb dev_key
         (Polars.join Z.eqb Claim.PolicyID Policy.PolicyID claim_dev
            df_claims df_policies)).

(** 3. ACPH *)
Definition acph_row (d : Dev.t) (e : Exposure.t) : ACPHRow.t :=
  {| ACPHRow.CohortYear := Dev.CohortYear d;
     ACPHRow.DevYear := Dev.DevYear d;
     ACPHRow.ProductType := Dev.ProductType d;
     ACPHRow.TotalClaims := Dev.TotalClaims d;
     ACPHRow.TotalHomes := Exposure.TotalHomes e;
     ACPHRow.ACPH := fdiv (Dev.TotalClaims d) (Exposure.TotalHomes e) |}.

(** The transform of [load_data] once both datasets are read. *)
Definition acph_table (df_policies : list Policy.t) (df_claims : list Claim.t)
    : list ACPHRow.t :=
  Polars.sort acph_leb
    (Polars.join Z.eqb Dev.CohortYear Exposure.CohortYear acph_row
       (claims_dev df_policies df_claims) (exposure df_policies)).

(** ** [load_data]: locating and reading the datasets *)

(** The three entries of [possible_paths]. *)
Inductive Path : Type :=
| Here          (* Path(".") *)
| Parent        (* Path("..") *)
| GrandParent.  (* Path("../..") *)

(** What a directory holds of the two parquet files. *)
Record Dir : Type :=
  { Policy_Book : option (list Policy.t);
    Claims_Transaction : option (list Claim.t) }.

Definition possible_paths : list Path := [Here; Parent; GrandParent].

Definition exists_ {A : Type} (f : option A) : bool :=
  match f with
  | Some _ => true
  | None => false
  end.

Definition read_parquet {A : Type} (f : option A) : result A :=
  match f with
  | Some df => Return df
  | None => Raise FileNotFoundError
  end.

Definition load_data (fs : Path -> Dir) : result (list ACPHRow.t) :=
  match find (fun p => exists_ (Policy_Book (fs p))) possible_paths with
  | None => Return []
  | Some data_dir =>
      df_policies <- read_parquet (Policy_Book (fs data_dir)) ;;
      df_claims <- read_parquet (Claims_Transaction (fs data_dir)) ;;
      Return (acph_table df_policies df_claims)
  end.

(** ** The curve *)

(** The curve is taken over the real numbers: the rounding, underflow and
    overflow of float64 are not modelled. *)
Section Curve.
Local Open Scope R_scope.

(** [x ** y] on reals.  [None] stands for the results that are not real
    numbers: a zero base with a negative exponent, and a negative base with
    an exponent that is not an integer. *)
Definition np_power (x y : R) : option R :=
  if Rlt_dec 0 x then Some (Rpower x y)
  else if Req_dec_T x 0 then
    if Rlt_dec y 0 then None
    else if Req_dec_T y 0 then Some 1 else Some 0
  else if Req_dec_T y (IZR (Int_part y)) then Some (powerRZ x (Int_part y))
  else None.

Definition actuarial_curve (t A B C : R) : option R :=
  let t_safe := Rmax t (1 / 10) in
  match np_power t_safe B with
  | Some p => Some (A * p * exp (- C * t_safe))
  | None => None
  end.
End Curve.

(** ** Index assignment of numpy and pandas *)

Fixpoint list_set {A : Type} (i : nat) (v : A) (l : list A) : list A :=
  match l, i with
  | [], _ => []
  | _ :: l', O => v :: l'
  | a :: l', S i' => a :: list_set i' v l'
  end.

(** [arr[list(idx)] = v] and [df.iloc[list(idx), col] = v], for positions
    [idx] that are not negative: an IndexError when one of them is out of
    bounds. *)
Definition index_assign {A : Type} (v : A) (idx : list nat) (arr : list A)
    : result (list A) :=
  if forallb (fun i => (i <? List.length arr)%nat) idx
  then Return (fold_left (fun a i => list_set i v a) idx arr)
  else Raise IndexError.

(** [np.isin(np.arange(n), list(idx))] *)
Definition np_isin (arr idx : list nat) : list bool :=
  map (fun i => existsb (Nat.eqb i) idx) arr.

Definition np_arange (n : nat) : list nat := seq 0 n.

(** ** Server logic *)

Module Pattern.
Record t : Type := { DevYear : Z; AvgACPH : f64 }.
End Pattern.

Definition is_empty {A : Type} (df : list A) : bool :=
  match df with
  | [] => true
  | _ :: _ => false
  end.

Definition filtered_data (df_acph : list ACPHRow.t) (selected_product : string)
    : list ACPHRow.t :=
  if is_empty df_acph then []
  else filter (fun r => String.eqb (ACPHRow.ProductType r) selected_product)
         df_acph.

(** The rows shown by the selection grid: CohortYear, DevYear, ACPH. *)
Definition exclusion_grid (df_acph : list ACPHRow.t) (product : string)
    : list (Z * Z * f64) :=
  let df := filtered_data df_acph product in
  if is_empty df then []
  else map (fun r => (ACPHRow.CohortYear r, ACPHRow.DevYear r, ACPHRow.ACPH r))
         df.

(** The inclusion mask of [fitted_curve]. *)
Definition include_mask (n : nat) (selected_indices : list nat)
    : result (list bool) :=
  match selected_indices with
  | [] => Return (repeat true n)
  | _ :: _ => index_assign false selected_indices (repeat true n)
  end.

(** [df_clean] of [fitted_curve]. *)
Definition df_clean (df : list ACPHRow.t) (selected_indices : list nat)
    : result (list ACPHRow.t) :=
  mask <- include_mask (List.length df) selected_indices ;;
  Return (Polars.filter_mask df mask).

Definition pattern_leb (a b : Pattern.t) : bool :=
  Pattern.DevYear a <=? Pattern.DevYear b.

(** [df_pattern] of [fitted_curve]. *)
Definition df_pattern (clean : list ACPHRow.t) : list Pattern.t :=
  filter (fun p => Pattern.DevYear p <=? 10)
    (Polars.sort pattern_leb
       (map (fun '(d, g) =>
               {| Pattern.DevYear := d;
                  Pattern.AvgACPH := fmean (map ACPHRow.ACPH g) |})
            (Polars.group_by Z.eqb ACPHRow.DevYear clean))).

(** One call of [curve_fit(actuarial_curve, x_data, y_data, p0, maxfev)]. *)
Record SolverCall : Type :=
  { x_data : list Z; y_data : list f64; p0 : list Q; maxfev : Z }.

(** A value together with the solver calls made to compute it. *)
Record Traced (A : Type) : Type :=
  { value : A; solver_calls : list SolverCall }.

Arguments value {A} _.
Arguments solver_calls {A} _.

Definition untraced {A : Type} (a : A) : Traced A :=
  {| value := a; solver_calls := [] |}.

Inductive Status : Type := Included | Excluded.

Section Server.
(** The fitted parameters, and the solver: [Some popt] when it converges,
    [None] when it raises. *)
Variable popt : Type.
Variable curve_fit : SolverCall -> option popt.

(** [fitted_curve] from [df_pattern] on; the bare [except] turns a raising
    solver into [None]. *)
Definition fit_pattern (pattern : list Pattern.t) : Traced (option popt) :=
  if (List.length pattern <? 3)%nat then untraced None
  else
    let call :=
      {| x_data := map Pattern.DevYear pattern;
         y_data := map Pattern.AvgACPH pattern;
         p0 := [100; 2; 1 # 2]%Q;
         maxfev := 5000 |} in
    {| value := curve_fit call; solver_calls := [call] |}.

Definition fitted_curve (df_acph : list ACPHRow.t) (product : string)
    (selected_indices : list nat) : result (Traced (option popt)) :=
  let df := filtered_data df_acph product in
  if is_empty df then Return (untraced None)
  else
    clean <- df_clean df selected_indices ;;
    Return (fit_pattern (df_pattern clean)).

Record Figure : Type :=
  { title : string;
    points : list (ACPHRow.t * Status);
    curve : option popt }.

Definition main_plot (df_acph : list ACPHRow.t) (product : string)
    (selected_indices : list nat) : result (Traced Figure) :=
  let df := filtered_data df_acph product in
  if is_empty df
  then Return (untraced {| title := "No Data Found"; points := [];
                           curve := None |})
  else
    let included := repeat Included (List.length df) in
    status <- match selected_indices with
              | [] => Return included
              | _ :: _ => index_assign Excluded selected_indices included
              end ;;
    fit <- fitted_curve df_acph product selected_indices ;;
    Return {| value := {| title := "ACPH Analysis: " ++ product;
                          points := combine df status;
                          curve := value fit |};
              solver_calls := solver_calls fit |}.
End Server.

Arguments title {popt} _.
Arguments points {popt} _.
Arguments curve {popt} _.

(** ** The persisted assumptions *)

#[local] Set Warnings "-register-all".

(** What [json.load] can return; floats do not occur in the file written by
    [save] and are left out. *)
Inductive json : Type :=
| JNull
| JBool (b : bool)
| JInt (n : Z)
| JStr (s : string)
| JArr (l : list json)
| JObj (d : list (string * json)).

(** A Python dict with string keys, in insertion order. *)
Module Dict.
Section Ops.
Context {V : Type}.

Fixpoint get (k : string) (d : list (string * V)) : option V :=
  match d with
  | [] => None
  | (k', v) :: d' => if String.eqb k k' then Some v else get k d'
  end.

(** [k in d] *)
Definition mem (k : string) (d : list (string * V)) : bool :=
  match get k d with
  | Some _ => true
  | None => false
  end.

(** [d[k] = v]: in place for a key of [d], at the end for a new one. *)
Fixpoint set (k : string) (v : V) (d : list (string * V))
    : list (string * V) :=
  match d with
  | [] => [(k, v)]
  | (k', v') :: d' =>
      if String.eqb k k' then (k', v) :: d' else (k', v') :: set k v d'
  end.
End Ops.
End Dict.

(** The dict behind a JSON value; membership tests on and item assignment to
    anything else end in a TypeError. *)
Definition as_dict (j : json) : result (list (string * json)) :=
  match j with
  | JObj d => Return d
  | _ => Raise TypeError
  end.

(** [d.setdefault]-like step spelled [if k not in d: d[k] = {}], then [d[k]]
    taken as a dict. *)
Definition ensure_dict (k : string) (d : list (string * json))
    : result (list (string * json) * list (string * json)) :=
  let d1 := if Dict.mem k d then d else Dict.set k (JObj []) d in
  match Dict.get k d1 with
  | Some j => sub <- as_dict j ;; Return (d1, sub)
  | None => Raise KeyError
  end.

Definition point_json (r : ACPHRow.t) : json :=
  JObj [("CohortYear", JInt (ACPHRow.CohortYear r));
        ("DevYear", JInt (ACPHRow.DevYear r))].

(** [excluded_points] of [save]. *)
Definition excluded_points (df : list ACPHRow.t) (selected_indices : list nat)
    : list json :=
  match selected_indices with
  | [] => []
  | _ :: _ =>
      map point_json
        (Polars.filter_mask df
           (np_isin (np_arange (List.length df)) selected_indices))
  end.

Record Notification : Type := { message : string; type_ : string }.

Definition str_of_nat (n : nat) : string :=
  NilEmpty.string_of_uint (Nat.to_uint n).

(** [save]: [file] is the content of assumptions.json when it exists; the
    result is the content written back and the notification shown. *)
Definition save (file : option json) (df_acph : list ACPHRow.t)
    (prod : string) (selected_indices : list nat)
    : result (json * Notification) :=
  let data := match file with
              | Some j => j
              | None => JObj [("products", JObj [])]
              end in
  d <- as_dict data ;;
  '(d, products) <- ensure_dict "products" d ;;
  '(products, entry) <- ensure_dict prod products ;;
  let df := filtered_data df_acph prod in
  let pts := excluded_points df selected_indices in
  let entry := Dict.set "excluded_points" (JArr pts) entry in
  let products := Dict.set prod (JObj entry) products in
  let d := Dict.set "products" (JObj products) d in
  Return (JObj d,
          {| message := "Saved " ++ str_of_nat (List.length pts)
                        ++ " exclusions for " ++ prod ++ "!";
             type_ := "success" |}).

(** ** The vocabulary of the specification *)

(** The payments of the claims that, joined to a policy on PolicyID, fall in
    the bucket (CohortYear, DevYear, ProductType). *)
Definition bucket_payments (df_policies : list Policy.t)
    (df_claims : list Claim.t) (cohort dev : Z) (product : string)
    : list f64 :=
  flat_map
    (fun c =>
       flat_map
         (fun p =>
            if (Claim.PolicyID c =? Policy.PolicyID p)
               && (Policy.CohortYear p =? cohort)
               && (year (Claim.ReportDate c) - Policy.CohortYear p =? dev)
               && String.eqb (Policy.ProductType p) product
            then [Claim.PaymentAmount c]
            else [])
         df_policies)
    df_claims.

(** The homes of the policies of a cohort. *)
Definition cohort_homes (df_policies : list Policy.t) (cohort : Z) : Z :=
  zsum (map Policy.NumHomes
          (filter (fun p => Policy.CohortYear p =? cohort) df_policies)).

(** Lexicographic order on (ProductType, CohortYear, DevYear). *)
Definition acph_le (r1 r2 : ACPHRow.t) : Prop :=
  String.compare (ACPHRow.ProductType r1) (ACPHRow.ProductType r2) = Lt \/
  (ACPHRow.ProductType r1 = ACPHRow.ProductType r2 /\
   (ACPHRow.CohortYear r1 < ACPHRow.CohortYear r2 \/
    (ACPHRow.CohortYear r1 = ACPHRow.CohortYear r2 /\
     ACPHRow.DevYear r1 <= ACPHRow.DevYear r2))).

(** The distinct DevYear values of a row set that are at most 10. *)
Definition distinct_dev_years (clean : list ACPHRow.t) : list Z :=
  nodup Z.eq_dec (filter (fun d => d <=? 10) (map ACPHRow.DevYear clean)).

(** The rows of a row set at one DevYear. *)
Definition rows_at_dev (clean : list ACPHRow.t) (dev : Z) : list ACPHRow.t :=
  filter (fun r => ACPHRow.DevYear r =? dev) clean.

Definition pattern_lt (a b : Pattern.t) : Prop :=
  Pattern.DevYear a < Pattern.DevYear b.

(** The points before the horizon filter: one per group, sorted. *)
Definition pattern_points (clean : list ACPHRow.t) : list Pattern.t :=
  Polars.sort pattern_leb
    (map (fun '(d, g) =>
            {| Pattern.DevYear := d;
               Pattern.AvgACPH := fmean (map ACPHRow.ACPH g) |})
         (Polars.group_by Z.eqb ACPHRow.DevYear clean)).

(** The entry of a product in a persisted document, and the excluded points
    saved in it. *)
Definition product_entry (file : option json) (product : string)
    : option json :=
  match file with
  | Some (JObj d) =>
      match Dict.get "products" d with
      | Some (JObj products) => Dict.get product products
      | _ => None
      end
  | _ => None
  end.

Definition saved_points (file : option json) (product : string)
    : option json :=
  match product_entry file product with
  | Some (JObj entry) => Dict.get "excluded_points" entry
  | _ => None
  end.

(** The persisted document has the shape [save] writes, as far as the
    product is concerned: no file yet, or an object whose "products", when
    present, is an object whose entry for the product, when present, is an
    object. *)
Definition persisted_ok (file : option json) (product : string) : bool :=
  match file with
  | None => true
  | Some (JObj d) =>
      match Dict.get "products" d with
      | None => true
      | Some (JObj products) =>
          match Dict.get product products with
          | None | Some (JObj _) => true
          | Some _ => false
          end
      | Some _ => false
      end
  | Some _ => false
  end.

(** The positions below [n] that belong to the exclusion set, ascending and
    without repetition. *)
Definition valid_positions (n : nat) (selected_indices : list nat)
    : list nat :=
  filter (fun i => existsb (Nat.eqb i) selected_indices) (seq 0 n).

(** The rows of a view at the given positions; a position outside the view
    contributes nothing. *)
Definition rows_at_positions (view : list ACPHRow.t) (positions : list nat)
    : list ACPHRow.t :=
  flat_map (fun i => match nth_error view i with
                     | Some r => [r]
                     | None => []
                     end)
    positions.

(** The rows excluded at save time. *)
Definition excluded_rows (view : list ACPHRow.t) (selected_indices : list nat)
    : list ACPHRow.t :=
  rows_at_positions view (valid_positions (List.length view) selected_indices).

(** ** Sample data *)

Definition sample_row (product : string) (cohort dev : Z) (claims : Q)
    (homes : Z) : ACPHRow.t :=
  {| ACPHRow.CohortYear := cohort; ACPHRow.DevYear := dev;
     ACPHRow.ProductType := product; ACPHRow.TotalClaims := Fin claims;
     ACPHRow.TotalHomes := homes; ACPHRow.ACPH := fdiv (Fin claims) homes |}.

(** Six rows of Detached and two of Flat, in table order. *)
Definition sample_acph : list ACPHRow.t :=
  [sample_row "Detached" 2020 0 100 10; sample_row "Detached" 2020 1 300 10;
   sample_row "Detached" 2020 2 200 10; sample_row "Detached" 2021 0 80 20;
   sample_row "Detached" 2021 1 240 20; sample_row "Detached" 2021 2 160 20;
   sample_row "Flat" 2020 0 50 10; sample_row "Flat" 2020 1 70 10].

(** Three policies over two cohorts and seven claims, one of them on an
    unknown policy and one reported before its cohort year. *)
Definition sample_policies : list Policy.t :=
  [{| Policy.PolicyID := 1; Policy.CohortYear := 2021;
      Policy.ProductType := "Flat"; Policy.NumHomes := 4 |};
   {| Policy.PolicyID := 2; Policy.CohortYear := 2020;
      Policy.ProductType := "Detached"; Policy.NumHomes := 6 |};
   {| Policy.PolicyID := 3; Policy.CohortYear := 2020;
      Policy.ProductType := "Flat"; Policy.NumHomes := 4 |}].

Definition sample_claim (policy report_year : Z) (amount : Q) : Claim.t :=
  {| Claim.PolicyID := policy;
     Claim.ReportDate := {| year := report_year; month := 1; day := 1 |};
     Claim.PaymentAmount := Fin amount |}.

Definition sample_claims : list Claim.t :=
  [sample_claim 3 2022 30; sample_claim 1 2021 10; sample_claim 2 2021 50;
   sample_claim 3 2020 5; sample_claim 3 2022 20; sample_claim 9 2020 1;
   sample_claim 2 2019 7].

(** A cohort whose only policy has no homes, and a claim on it. *)
Definition policies_without_homes : list Policy.t :=
  [{| Policy.PolicyID := 1; Policy.CohortYear := 2020;
      Policy.ProductType := "Flat"; Policy.NumHomes := 0 |}].

Definition claims_without_homes : list Claim.t :=
  [{| Claim.PolicyID := 1;
      Claim.ReportDate := {| year := 2021; month := 3; day := 1 |};
      Claim.PaymentAmount := Fin 100 |}].

(** A persisted document holding one excluded point for Flat. *)
Definition sample_file : json :=
  JObj [("products",
         JObj [("Flat",
                JObj [("excluded_points",
                       JArr [JObj [("CohortYear", JInt 2020);
                                   ("DevYear", JInt 1)]])])])].

(** ** Keys, orders and positions *)

(** The bucket of a row of the claims-development and of the ACPH table. *)
Definition dev_row_key (d : Dev.t) : key3 :=
  (Dev.CohortYear d, Dev.DevYear d, Dev.ProductType d).

Definition acph_key (r : ACPHRow.t) : key3 :=
  (ACPHRow.CohortYear r, ACPHRow.DevYear r, ACPHRow.ProductType r).

(** Strict order of one product's rows: CohortYear, then DevYear. *)
Definition view_lt (r1 r2 : ACPHRow.t) : Prop :=
  ACPHRow.CohortYear r1 < ACPHRow.CohortYear r2 \/
  (ACPHRow.CohortYear r1 = ACPHRow.CohortYear r2 /\
   ACPHRow.DevYear r1 < ACPHRow.DevYear r2).

(** The entries of [possible_paths] tried before a given one. *)
Definition searched_before (p : Path) : list Path :=
  match p with
  | Here => []
  | Parent => [Here]
  | GrandParent => [Here; Parent]
  end.


(** The positions below [n] that do not belong to the exclusion set. *)
Definition included_positions (n : nat) (selected_indices : list nat)
    : list nat :=
  filter (fun i => negb (existsb (Nat.eqb i) selected_indices)) (seq 0 n).

Definition status_eqb (s1 s2 : Status) : bool :=
  match s1, s2 with
  | Included, Included | Excluded, Excluded => true
  | _, _ => false
  end.

(** The rows of a plot that carry a given label, in plot order. *)
Definition rows_labelled (s : Status) (points : list (ACPHRow.t * Status))
    : list ACPHRow.t :=
  map fst (filter (fun p => status_eqb (snd p) s) points).

(** ** [params_table] *)

(** The frame rendered by [params_table]: the single Status column, or the
    Parameter and Value columns. *)
Inductive ParamsTable (popt : Type) : Type :=
| StatusTable (status : list string)
| ValueTable (parameter : list string) (values : popt).

Arguments StatusTable {popt} status.
Arguments ValueTable {popt} parameter values.

Section Table.
Variable popt : Type.
Variable curve_fit : SolverCall -> option popt.

Definition params_table (df_acph : list ACPHRow.t) (product : string)
    (selected_indices : list nat) : result (Traced (ParamsTable popt)) :=
  fit <- fitted_curve popt curve_fit df_acph product selected_indices ;;
  Return {| value := match value fit with
                     | None => StatusTable ["Fit Failed"]
                     | Some p =>
                         ValueTable ["A (Scale)"; "B (Shape)"; "C (Decay)"] p
                     end;
            solver_calls := solver_calls fit |}.
End Table.

(** * Properties *)

(** ** Grouping, joining and sorting *)

Section GroupFacts.
Context {A K : Type}.
Variable eqb : K -> K -> bool.
Hypothesis eqb_eq : forall a b, eqb a b = true <-> a = b.
Variable key : A -> K.

Local Abbreviation group_of := (@Polars.group_of A K eqb).

Let members (k : K) (l : list A) : list A :=
  filter (fun a => eqb (key a) k) l.

Lemma eqb_refl' k : eqb k k = true.
Proof. now apply eqb_eq. Qed.

Lemma eqb_sym' a b : eqb a b = eqb b a.
Proof.
  destruct (eqb a b) eqn:E1, (eqb b a) eqn:E2; trivial.
  - apply eqb_eq in E1. subst. now rewrite eqb_refl' in E2.
  - apply eqb_eq in E2. subst. now rewrite eqb_refl' in E1.
Qed.

Lemma eqb_trans' a b c : eqb a b = true -> eqb b c = eqb a c.
Proof. intros H. apply eqb_eq in H. now subst. Qed.

Lemma group_of_None k gs :
  group_of k gs = None <-> ~ In k (map fst gs).
Proof.
  induction gs as [|[k' g] gs IH]; simpl.
  - tauto.
  - destruct (eqb k k') eqn:E.
    + apply eqb_eq in E. subst. split; [discriminate | tauto].
    + rewrite IH. split.
      * intros Hn [->|H]; [now rewrite eqb_refl' in E | tauto].
      * tauto.
Qed.

Lemma group_of_In k g gs :
  NoDup (map fst gs) -> In (k, g) gs -> group_of k gs = Some g.
Proof.
  induction gs as [|[k' g'] gs IH]; simpl; [tauto|].
  intros Hnd [H|H].
  - inversion H; subst. now rewrite eqb_refl'.
  - inversion Hnd as [|? ? Hnot Hnd']; subst.
    destruct (eqb k k') eqn:E; [|now apply IH].
    apply eqb_eq in E. subst. exfalso. apply Hnot.
    now apply (in_map fst) in H.
Qed.

Lemma keys_add_to_group k a gs :
  map fst (Polars.add_to_group eqb k a gs) =
  match group_of k gs with
  | Some _ => map fst gs
  | None => map fst gs ++ [k]
  end.
Proof.
  induction gs as [|[k' g] gs IH]; simpl; trivial.
  destruct (eqb k k'); simpl; trivial.
  rewrite IH. now destruct (group_of k gs).
Qed.

Lemma group_of_add_to_group k a gs k' :
  group_of k' (Polars.add_to_group eqb k a gs) =
  if eqb k k'
  then Some (match group_of k gs with Some g => g | None => [] end ++ [a])
  else group_of k' gs.
Proof.
  induction gs as [|[k0 g] gs IH]; simpl.
  - rewrite (eqb_sym' k' k). now destruct (eqb k k').
  - destruct (eqb k k0) eqn:E0; simpl.
    + apply eqb_eq in E0. subst k0. rewrite (eqb_sym' k' k).
      now destruct (eqb k k').
    + destruct (eqb k' k0) eqn:E1.
      * destruct (eqb k k') eqn:E2; trivial.
        rewrite (eqb_trans' _ _ k0 E2) in E1. congruence.
      * apply IH.
Qed.

Lemma group_of_Some k g gs : group_of k gs = Some g -> In (k, g) gs.
Proof.
  induction gs as [|[k' g'] gs IH]; simpl; [discriminate|].
  destruct (eqb k k') eqn:E.
  - apply eqb_eq in E. subst. intros H. inversion H. now left.
  - intros H. right. now apply IH.
Qed.

Lemma NoDup_snoc (k : K) ks : NoDup ks -> ~ In k ks -> NoDup (ks ++ [k]).
Proof.
  induction ks as [|x ks IH]; simpl; intros Hnd Hn.
  - constructor; [tauto | constructor].
  - inversion Hnd; subst. constructor.
    + rewrite in_app_iff. simpl. intros [H|[H|[]]]; [tauto | subst; tauto].
    + apply IH; tauto.
Qed.

Lemma members_snoc k l a :
  members k (l ++ [a]) =
  members k l ++ (if eqb (key a) k then [a] else []).
Proof.
  unfold members. rewrite filter_app. simpl. now destruct (eqb (key a) k).
Qed.

(** The state of the grouping after the rows [l]. *)
Lemma group_by_invariant l :
  NoDup (map fst (Polars.group_by eqb key l)) /\
  forall k,
    group_of k (Polars.group_by eqb key l) =
    match members k l with
    | [] => None
    | g => Some g
    end.
Proof.
  unfold Polars.group_by.
  induction l as [|a l IH] using rev_ind; simpl.
  - split; [constructor | trivial].
  - rewrite fold_left_app. simpl.
    destruct IH as [Hnd Hgrp].
    set (gs := fold_left _ l []) in *.
    split.
    + rewrite keys_add_to_group.
      destruct (group_of (key a) gs) eqn:E; trivial.
      apply NoDup_snoc; trivial. now apply group_of_None.
    + intros k. rewrite group_of_add_to_group, members_snoc.
      destruct (eqb (key a) k) eqn:E.
      * apply eqb_eq in E. subst k. rewrite Hgrp.
        destruct (members (key a) l); reflexivity.
      * rewrite Hgrp, app_nil_r. reflexivity.
Qed.

Lemma group_by_In k g l :
  In (k, g) (Polars.group_by eqb key l) ->
  g = filter (fun a => eqb (key a) k) l /\ g <> [].
Proof.
  intros H. destruct (group_by_invariant l) as [Hnd Hgrp].
  apply (group_of_In _ _ _ Hnd) in H. rewrite Hgrp in H.
  unfold members in H.
  destruct (filter _ l) eqn:E; [discriminate|].
  inversion H; subst. split; [reflexivity | discriminate].
Qed.

Lemma group_by_keys k l :
  In k (map fst (Polars.group_by eqb key l)) <-> In k (map key l).
Proof.
  destruct (group_by_invariant l) as [_ Hgrp].
  split; intros H.
  - destruct (group_of k (Polars.group_by eqb key l)) eqn:E.
    + rewrite Hgrp in E. unfold members in E.
      destruct (filter _ l) as [|a g] eqn:Ef; [discriminate|].
      assert (Ha : In a (filter (fun a => eqb (key a) k) l))
        by (rewrite Ef; now left).
      apply filter_In in Ha. destruct Ha as [Ha Hk].
      apply eqb_eq in Hk. subst k. now apply in_map.
    + apply group_of_None in E. tauto.
  - apply in_map_iff in H. destruct H as [a [<- Ha]].
    destruct (group_of (key a) (Polars.group_by eqb key l)) eqn:E.
    + apply group_of_Some in E. now apply (in_map fst) in E.
    + exfalso. rewrite Hgrp in E. unfold members in E.
      assert (Hin : In a (filter (fun a' => eqb (key a') (key a)) l))
        by (apply filter_In; split; [trivial | apply eqb_refl']).
      destruct (filter _ l); [destruct Hin | discriminate].
Qed.
End GroupFacts.

Section SortFacts.
Context {A : Type}.
Variable leb : A -> A -> bool.
Hypothesis leb_total : forall a b, leb a b = true \/ leb b a = true.

Local Abbreviation le := (fun a b => leb a b = true).

Lemma insert_perm x l : Permutation (Polars.insert leb x l) (x :: l).
Proof.
  induction l as [|y l IH]; simpl; [reflexivity|].
  destruct (leb x y); [reflexivity|].
  rewrite IH. apply perm_swap.
Qed.

Lemma sort_perm l : Permutation (Polars.sort leb l) l.
Proof.
  induction l as [|x l IH]; simpl; [reflexivity|].
  rewrite insert_perm. now constructor.
Qed.

Lemma sort_In x l : In x (Polars.sort leb l) <-> In x l.
Proof.
  split; apply Permutation_in; [|symmetry]; apply sort_perm.
Qed.

Lemma insert_hd x y l :
  le y x -> HdRel le y l -> HdRel le y (Polars.insert leb x l).
Proof.
  intros Hyx Hhd. destruct l as [|z l]; simpl.
  - now constructor.
  - inversion Hhd; subst. destruct (leb x z); now constructor.
Qed.

Lemma insert_sorted x l :
  Sorted le l -> Sorted le (Polars.insert leb x l).
Proof.
  induction 1 as [|y l Hs IH Hhd]; simpl.
  - repeat constructor.
  - destruct (leb x y) eqn:E.
    + constructor; [now constructor | now constructor].
    + constructor; trivial. apply insert_hd; trivial.
      destruct (leb_total x y); congruence.
Qed.

Lemma sort_sorted l : Sorted le (Polars.sort leb l).
Proof.
  induction l as [|x l IH]; simpl; [constructor | now apply insert_sorted].
Qed.
End SortFacts.

Lemma Sorted_weaken {A : Type} (R S : A -> A -> Prop) l :
  (forall a b, R a b -> S a b) -> Sorted R l -> Sorted S l.
Proof.
  intros HRS. induction 1 as [|a l Hs IH Hhd]; constructor; trivial.
  destruct Hhd; constructor. now apply HRS.
Qed.

(** ** The aggregation of [load_data] *)

Lemma key3_eqb_eq (a b : key3) : key3_eqb a b = true <-> a = b.
Proof.
  destruct a as [[c1 d1] p1], b as [[c2 d2] p2]. unfold key3_eqb.
  rewrite !andb_true_iff, !Z.eqb_eq, String.eqb_eq.
  split; [intros [[-> ->] ->]; reflexivity | intros H; inversion H; auto].
Qed.

Lemma acph_leb_le r1 r2 : acph_leb r1 r2 = true <-> acph_le r1 r2.
Proof.
  unfold acph_leb, acph_le.
  destruct (String.compare _ _) eqn:E.
  - apply String.compare_eq_iff in E. rewrite E.
    destruct (Z.ltb_spec (ACPHRow.CohortYear r1) (ACPHRow.CohortYear r2)).
    + split; [intros _; right; split; [reflexivity | lia] | reflexivity].
    + destruct (Z.ltb_spec (ACPHRow.CohortYear r2) (ACPHRow.CohortYear r1)).
      * split; [discriminate | intros [H'|[_ H']]]; [discriminate | lia].
      * rewrite Z.leb_le. split.
        -- intros H'. right. split; [reflexivity | lia].
        -- intros [H'|[_ H']]; [discriminate | lia].
  - split; [now left | reflexivity].
  - split; [discriminate | intros [H|[H _]]]; [discriminate|].
    rewrite H in E.
    assert (Hr : String.compare (ACPHRow.ProductType r2)
                   (ACPHRow.ProductType r2) = Eq).
    { destruct (OrderedTypeEx.String_as_OT.cmp_eq (ACPHRow.ProductType r2)
                  (ACPHRow.ProductType r2)) as [_ Hr].
      now apply Hr. }
    congruence.
Qed.

Lemma acph_leb_total r1 r2 : acph_leb r1 r2 = true \/ acph_leb r2 r1 = true.
Proof.
  unfold acph_leb.
  rewrite (String.compare_antisym (ACPHRow.ProductType r1)).
  destruct (String.compare (ACPHRow.ProductType r2) (ACPHRow.ProductType r1));
    simpl; auto.
  destruct (Z.ltb_spec (ACPHRow.CohortYear r1) (ACPHRow.CohortYear r2)),
    (Z.ltb_spec (ACPHRow.CohortYear r2) (ACPHRow.CohortYear r1));
    auto; lia.
Qed.

Lemma acph_le_trans r1 r2 r3 : acph_le r1 r2 -> acph_le r2 r3 -> acph_le r1 r3.
Proof.
  unfold acph_le. intros [H1|[E1 H1]] [H2|[E2 H2]].
  - left. apply OrderedTypeEx.String_as_OT.cmp_lt. apply OrderedTypeEx.String_as_OT.cmp_lt in H1, H2.
    eapply OrderedTypeEx.String_as_OT.lt_trans; eassumption.
  - left. now rewrite <- E2.
  - left. now rewrite E1.
  - right. split; [congruence | lia].
Qed.

Lemma join_In {A B C K : Type} (eqb : K -> K -> bool) (kl : A -> K)
    (kr : B -> K) (mk : A -> B -> C) left right c :
  In c (Polars.join eqb kl kr mk left right) <->
  exists a b, In a left /\ In b right /\ eqb (kl a) (kr b) = true /\
              c = mk a b.
Proof.
  unfold Polars.join. rewrite in_flat_map. split.
  - intros [a [Ha Hc]]. apply in_map_iff in Hc. destruct Hc as [b [<- Hb]].
    apply filter_In in Hb. destruct Hb as [Hb Hk]. now exists a, b.
  - intros [a [b [Ha [Hb [Hk ->]]]]]. exists a. split; trivial.
    apply in_map. apply filter_In. now split.
Qed.

Lemma bucket_of_join df_policies df_claims cohort dev product :
  map ClaimDev.PaymentAmount
    (filter (fun j => key3_eqb (dev_key j) (cohort, dev, product))
       (Polars.join Z.eqb Claim.PolicyID Policy.PolicyID claim_dev
          df_claims df_policies)) =
  bucket_payments df_policies df_claims cohort dev product.
Proof.
  unfold Polars.join, bucket_payments.
  induction df_claims as [|c cs IH]; cbn [flat_map]; trivial.
  rewrite filter_app, map_app, IH. f_equal. clear IH.
  induction df_policies as [|p ps IHp]; cbn [flat_map filter map]; trivial.
  destruct (Claim.PolicyID c =? Policy.PolicyID p);
    cbn [andb map filter]; trivial.
  rewrite <- IHp. unfold key3_eqb, dev_key. cbn [claim_dev ClaimDev.CohortYear
    ClaimDev.DevYear ClaimDev.ProductType ClaimDev.PaymentAmount].
  destruct (Policy.CohortYear p =? cohort); cbn [andb]; trivial.
  destruct (year (Claim.ReportDate c) - Policy.CohortYear p =? dev);
    cbn [andb]; trivial.
  destruct (String.eqb (Policy.ProductType p) product); reflexivity.
Qed.

Lemma exposure_In df_policies e :
  In e (exposure df_policies) ->
  Exposure.TotalHomes e = cohort_homes df_policies (Exposure.CohortYear e) /\
  exists p, In p df_policies /\ Policy.CohortYear p = Exposure.CohortYear e.
Proof.
  unfold exposure. intros H. apply in_map_iff in H.
  destruct H as [[c g] [<- Hg]]. simpl.
  pose proof (in_map fst _ _ Hg) as Hk. simpl in Hk.
  apply (proj1 (group_by_keys Z.eqb Z.eqb_eq Policy.CohortYear c df_policies))
    in Hk.
  apply (group_by_In Z.eqb Z.eqb_eq) in Hg. destruct Hg as [-> _].
  split; [reflexivity|].
  apply in_map_iff in Hk. destruct Hk as [p [Hp Hin]]. now exists p.
Qed.

Lemma claims_dev_In df_policies df_claims d :
  In d (claims_dev df_policies df_claims) ->
  Dev.TotalClaims d =
  fsum (bucket_payments df_policies df_claims
          (Dev.CohortYear d) (Dev.DevYear d) (Dev.ProductType d)).
Proof.
  unfold claims_dev. intros H. apply in_map_iff in H.
  destruct H as [[[[c y] p] g] [<- Hg]]. simpl.
  apply (group_by_In key3_eqb key3_eqb_eq) in Hg. destruct Hg as [-> _].
  now rewrite bucket_of_join.
Qed.

Lemma acph_table_In df_policies df_claims r :
  In r (acph_table df_policies df_claims) <->
  exists d e,
    In d (claims_dev df_policies df_claims) /\
    In e (exposure df_policies) /\
    Dev.CohortYear d = Exposure.CohortYear e /\
    r = acph_row d e.
Proof.
  unfold acph_table. rewrite sort_In, join_In.
  split; intros [d [e [Hd [He [Hk Hr]]]]]; exists d, e;
    repeat split; trivial; now apply Z.eqb_eq.
Qed.

(** C1: every row of the ACPH table has ACPH = TotalClaims / TotalHomes,
    where TotalClaims sums PaymentAmount over the claims joined to policies
    on PolicyID that fall in the row's (CohortYear, DevYear, ProductType)
    bucket, DevYear being year(ReportDate) - CohortYear, and TotalHomes sums
    NumHomes over the policies of the row's CohortYear; the rows are sorted
    by (ProductType, CohortYear, DevYear). *)
Theorem acph_table_correct (df_policies : list Policy.t)
    (df_claims : list Claim.t) :
  Forall
    (fun r =>
       ACPHRow.ACPH r =
       fdiv
         (fsum (bucket_payments df_policies df_claims (ACPHRow.CohortYear r)
                  (ACPHRow.DevYear r) (ACPHRow.ProductType r)))
         (cohort_homes df_policies (ACPHRow.CohortYear r)))
    (acph_table df_policies df_claims) /\
  StronglySorted acph_le (acph_table df_policies df_claims).
Proof.
  split.
  - apply Forall_forall. intros r Hr. apply acph_table_In in Hr.
    destruct Hr as [d [e [Hd [He [Hk ->]]]]]. simpl.
    apply claims_dev_In in Hd. apply exposure_In in He.
    destruct He as [He _]. now rewrite Hd, He, Hk.
  - apply Sorted_StronglySorted.
    + intros a b c. apply acph_le_trans.
    + unfold acph_table.
      eapply Sorted_weaken;
        [|apply (sort_sorted acph_leb acph_leb_total)].
      intros a b. apply acph_leb_le.
Qed.

Example acph_table_sample :
  map (fun r => (ACPHRow.ProductType r, ACPHRow.CohortYear r,
                 ACPHRow.DevYear r, ACPHRow.ACPH r))
      (acph_table sample_policies sample_claims) =
  [("Detached", 2020, -1, Fin (7 # 10)); ("Detached", 2020, 1, Fin 5);
   ("Flat", 2020, 0, Fin (1 # 2)); ("Flat", 2020, 2, Fin 5);
   ("Flat", 2021, 0, Fin (5 # 2))].
Proof. vm_compute. reflexivity. Qed.

Lemma exposure_cohorts df_policies :
  map Exposure.CohortYear (exposure df_policies) =
  map fst (Polars.group_by Z.eqb Policy.CohortYear df_policies).
Proof.
  unfold exposure. rewrite map_map. apply map_ext. now intros [c g].
Qed.

Lemma claims_dev_keys df_policies df_claims :
  map dev_row_key (claims_dev df_policies df_claims) =
  map fst
    (Polars.group_by key3_eqb dev_key
       (Polars.join Z.eqb Claim.PolicyID Policy.PolicyID claim_dev
          df_claims df_policies)).
Proof.
  unfold claims_dev. rewrite map_map. apply map_ext.
  now intros [[[c d] p] g].
Qed.

Lemma exposure_cohort_In df_policies c :
  In c (map Exposure.CohortYear (exposure df_policies)) <->
  In c (map Policy.CohortYear df_policies).
Proof.
  rewrite exposure_cohorts. apply (group_by_keys Z.eqb Z.eqb_eq).
Qed.

Lemma claims_dev_key_In df_policies df_claims k :
  In k (map dev_row_key (claims_dev df_policies df_claims)) <->
  exists c p,
    In c df_claims /\ In p df_policies /\
    Claim.PolicyID c = Policy.PolicyID p /\
    k = (Policy.CohortYear p,
         year (Claim.ReportDate c) - Policy.CohortYear p,
         Policy.ProductType p).
Proof.
  rewrite claims_dev_keys, (group_by_keys key3_eqb key3_eqb_eq), in_map_iff.
  split.
  - intros [j [<- Hj]]. apply join_In in Hj.
    destruct Hj as [c [p [Hc [Hp [Hk ->]]]]]. apply Z.eqb_eq in Hk.
    now exists c, p.
  - intros [c [p [Hc [Hp [Hk ->]]]]]. exists (claim_dev c p).
    split; [reflexivity|]. apply join_In. exists c, p.
    repeat split; trivial. now apply Z.eqb_eq.
Qed.

Lemma acph_table_key_In df_policies df_claims k :
  In k (map acph_key (acph_table df_policies df_claims)) <->
  In k (map dev_row_key (claims_dev df_policies df_claims)).
Proof.
  rewrite !in_map_iff. split.
  - intros [r [<- Hr]]. apply acph_table_In in Hr.
    destruct Hr as [d [e [Hd [_ [_ ->]]]]]. now exists d.
  - intros [d [<- Hd]].
    assert (Hc : In (Dev.CohortYear d)
                   (map Exposure.CohortYear (exposure df_policies))).
    { apply exposure_cohort_In.
      assert (Hk : In (dev_row_key d)
                     (map dev_row_key (claims_dev df_policies df_claims)))
        by now apply in_map.
      apply claims_dev_key_In in Hk.
      destruct Hk as [c [p [_ [Hp [_ Hk]]]]].
      unfold dev_row_key in Hk. inversion Hk as [[H0 H1 H2]].
      rewrite H0. now apply in_map. }
    apply in_map_iff in Hc. destruct Hc as [e [He Hin]].
    exists (acph_row d e). split; [reflexivity|].
    apply acph_table_In. now exists d, e.
Qed.

Lemma fold_add_positive (l : list Z) (a : Z) :
  (forall x, In x l -> 0 < x) ->
  a <= fold_left Z.add l a /\ (l <> [] -> a < fold_left Z.add l a).
Proof.
  revert a. induction l as [|x l IH]; simpl; intros a Hpos.
  - split; [lia | congruence].
  - assert (Hx : 0 < x) by (apply Hpos; now left).
    destruct (IH (a + x)) as [Hle _]; [intros; apply Hpos; now right|].
    split; [lia | intros _; lia].
Qed.

Lemma cohort_homes_positive df_policies cohort :
  (exists p, In p df_policies /\ Policy.CohortYear p = cohort) ->
  (forall p, In p df_policies -> Policy.CohortYear p = cohort ->
             0 < Policy.NumHomes p) ->
  0 < cohort_homes df_policies cohort.
Proof.
  intros [p [Hp Hc]] Hpos. unfold cohort_homes, zsum.
  apply fold_add_positive.
  - intros x Hx. apply in_map_iff in Hx. destruct Hx as [q [<- Hq]].
    apply filter_In in Hq. destruct Hq as [Hq Hk].
    apply Hpos; trivial. now apply Z.eqb_eq.
  - intros Hnil.
    assert (Hin : In (Policy.NumHomes p)
                    (map Policy.NumHomes
                       (filter (fun q => Policy.CohortYear q =? cohort)
                          df_policies))).
    { apply in_map, filter_In. split; trivial. now apply Z.eqb_eq. }
    rewrite Hnil in Hin. destruct Hin.
Qed.

(** Counterexample to C2 as stated: a policy without homes and one claim on
    it give a row whose cohort has TotalHomes = 0, and its ACPH is the
    quotient by that zero. *)
Lemma acph_table_zero_homes_row :
  cohort_homes policies_without_homes 2020 = 0 /\
  acph_table policies_without_homes claims_without_homes =
  [{| ACPHRow.CohortYear := 2020; ACPHRow.DevYear := 1;
      ACPHRow.ProductType := "Flat"; ACPHRow.TotalClaims := Fin 100;
      ACPHRow.TotalHomes := 0; ACPHRow.ACPH := PInf |}].
Proof. split; vm_compute; reflexivity. Qed.

(** C2, amended: the ACPH table has a row for a bucket exactly when some
    claim joins on PolicyID to a policy of that bucket, whatever the homes of
    the cohort: only cohorts without a policy are left out by the join, and
    a cohort whose NumHomes sum to zero keeps its rows.  Every row belongs to
    a cohort that has at least one policy, its denominator TotalHomes is the
    sum of NumHomes over the policies of that cohort, its ACPH is the
    quotient of TotalClaims by that denominator, and the denominator is
    positive whenever every policy of the cohort has NumHomes > 0. *)
Theorem acph_table_denominator (df_policies : list Policy.t)
    (df_claims : list Claim.t) :
  (forall cohort dev product,
      In (cohort, dev, product)
         (map acph_key (acph_table df_policies df_claims)) <->
      exists c p,
        In c df_claims /\ In p df_policies /\
        Claim.PolicyID c = Policy.PolicyID p /\
        Policy.CohortYear p = cohort /\
        year (Claim.ReportDate c) - cohort = dev /\
        Policy.ProductType p = product) /\
  Forall
    (fun r =>
       (exists p, In p df_policies /\
                  Policy.CohortYear p = ACPHRow.CohortYear r) /\
       ACPHRow.TotalHomes r =
         cohort_homes df_policies (ACPHRow.CohortYear r) /\
       ACPHRow.ACPH r =
         fdiv (ACPHRow.TotalClaims r)
           (cohort_homes df_policies (ACPHRow.CohortYear r)) /\
       ((forall p, In p df_policies ->
                   Policy.CohortYear p = ACPHRow.CohortYear r ->
                   0 < Policy.NumHomes p) ->
        0 < ACPHRow.TotalHomes r))
    (acph_table df_policies df_claims).
Proof.
  split.
  - intros cohort dev product.
    rewrite acph_table_key_In, claims_dev_key_In.
    split; intros [c [p [Hc [Hp [Hk H]]]]]; exists c, p.
    + inversion H; subst. repeat split; trivial.
    + destruct H as [<- [<- <-]]. repeat split; trivial.
  - apply Forall_forall. intros r Hr. apply acph_table_In in Hr.
    destruct Hr as [d [e [_ [He [Hk ->]]]]].
    apply exposure_In in He. destruct He as [He Hp].
    cbn [acph_row ACPHRow.CohortYear ACPHRow.TotalHomes ACPHRow.ACPH
         ACPHRow.TotalClaims].
    rewrite Hk, He. repeat split; trivial.
    now apply cohort_homes_positive.
Qed.

(** ** The pattern of [fitted_curve] *)

Lemma group_by_NoDup {A K : Type} (eqb : K -> K -> bool)
    (eqb_eq : forall a b, eqb a b = true <-> a = b) (key : A -> K) l :
  NoDup (map fst (Polars.group_by eqb key l)).
Proof. apply (group_by_invariant eqb eqb_eq key l). Qed.

Lemma StronglySorted_filter {A : Type} (R : A -> A -> Prop) (f : A -> bool) l :
  StronglySorted R l -> StronglySorted R (filter f l).
Proof.
  induction 1 as [|a l Hs IH Hall]; simpl; [constructor|].
  destruct (f a); trivial. constructor; trivial.
  apply Forall_forall. intros x Hx. apply filter_In in Hx.
  rewrite Forall_forall in Hall. now apply Hall.
Qed.

Lemma StronglySorted_strict {A : Type} (f : A -> Z) l :
  StronglySorted (fun a b => f a <= f b) l -> NoDup (map f l) ->
  StronglySorted (fun a b => f a < f b) l.
Proof.
  induction 1 as [|a l Hs IH Hall]; simpl; intros Hnd; [constructor|].
  inversion Hnd as [|? ? Hnot Hnd']; subst. constructor; [now apply IH|].
  apply Forall_forall. intros x Hx. rewrite Forall_forall in Hall.
  specialize (Hall x Hx).
  assert (f a <> f x) by (intros E; apply Hnot; rewrite E; now apply in_map).
  lia.
Qed.

Lemma StronglySorted_lt_NoDup {A : Type} (f : A -> Z) l :
  StronglySorted (fun a b => f a < f b) l -> NoDup (map f l).
Proof.
  induction 1 as [|a l Hs IH Hall]; simpl; constructor; trivial.
  intros Hin. apply in_map_iff in Hin. destruct Hin as [x [E Hx]].
  rewrite Forall_forall in Hall. specialize (Hall x Hx). lia.
Qed.

Lemma df_pattern_points clean :
  df_pattern clean =
  filter (fun p => Pattern.DevYear p <=? 10) (pattern_points clean).
Proof. reflexivity. Qed.

Lemma pattern_leb_total a b : pattern_leb a b = true \/ pattern_leb b a = true.
Proof. unfold pattern_leb. lia. Qed.

Lemma pattern_points_In clean p :
  In p (pattern_points clean) <->
  In (Pattern.DevYear p) (map ACPHRow.DevYear clean) /\
  Pattern.AvgACPH p =
    fmean (map ACPHRow.ACPH (rows_at_dev clean (Pattern.DevYear p))).
Proof.
  unfold pattern_points. rewrite sort_In, in_map_iff. split.
  - intros [[d g] [<- Hg]]. simpl.
    pose proof (in_map fst _ _ Hg) as Hk. simpl in Hk.
    apply (proj1 (group_by_keys Z.eqb Z.eqb_eq ACPHRow.DevYear d clean)) in Hk.
    apply (group_by_In Z.eqb Z.eqb_eq) in Hg. destruct Hg as [-> _].
    now split.
  - intros [Hk Havg].
    apply (proj2 (group_by_keys Z.eqb Z.eqb_eq ACPHRow.DevYear _ clean)) in Hk.
    apply in_map_iff in Hk. destruct Hk as [[d g] [Hd Hg]]. simpl in Hd.
    exists (d, g). split; trivial.
    apply (group_by_In Z.eqb Z.eqb_eq) in Hg. destruct Hg as [-> _].
    destruct p as [pd pa]. simpl in *. subst pd. now rewrite Havg.
Qed.

Lemma pattern_points_sorted clean :
  StronglySorted pattern_lt (pattern_points clean).
Proof.
  apply (StronglySorted_strict Pattern.DevYear).
  - apply Sorted_StronglySorted; [intros a b c; lia|].
    unfold pattern_points.
    eapply Sorted_weaken;
      [|apply (sort_sorted pattern_leb pattern_leb_total)].
    intros a b. unfold pattern_leb. lia.
  - eapply Permutation_NoDup.
    + symmetry. apply Permutation_map. apply sort_perm.
    + rewrite map_map.
      erewrite map_ext; [apply (group_by_NoDup Z.eqb Z.eqb_eq)|].
      now intros [d g].
Qed.

Lemma df_pattern_sorted clean : StronglySorted pattern_lt (df_pattern clean).
Proof.
  rewrite df_pattern_points.
  apply StronglySorted_filter, pattern_points_sorted.
Qed.

Lemma df_pattern_dev_years clean d :
  In d (map Pattern.DevYear (df_pattern clean)) <->
  In d (map ACPHRow.DevYear clean) /\ d <= 10.
Proof.
  rewrite df_pattern_points, in_map_iff. split.
  - intros [p [<- Hp]]. apply filter_In in Hp. destruct Hp as [Hp Hle].
    apply pattern_points_In in Hp. split; [tauto | lia].
  - intros [Hd Hle].
    exists {| Pattern.DevYear := d;
              Pattern.AvgACPH :=
                fmean (map ACPHRow.ACPH (rows_at_dev clean d)) |}.
    split; trivial. apply filter_In. split; [|simpl; lia].
    apply pattern_points_In. now split.
Qed.

Lemma df_pattern_means clean p :
  In p (df_pattern clean) ->
  Pattern.AvgACPH p =
  fmean (map ACPHRow.ACPH (rows_at_dev clean (Pattern.DevYear p))).
Proof.
  rewrite df_pattern_points. intros Hp. apply filter_In in Hp.
  destruct Hp as [Hp _]. now apply pattern_points_In in Hp.
Qed.

(** C7: the pattern has one point per DevYear of the clean rows that is at
    most 10 (negative ones included) and none above 10, each point carries
    the mean ACPH of the clean rows of its DevYear, and the points are in
    ascending DevYear order. *)
Theorem df_pattern_correct (clean : list ACPHRow.t) :
  StronglySorted pattern_lt (df_pattern clean) /\
  (forall d, In d (map Pattern.DevYear (df_pattern clean)) <->
             In d (map ACPHRow.DevYear clean) /\ d <= 10) /\
  Forall
    (fun p =>
       Pattern.AvgACPH p =
       fmean (map ACPHRow.ACPH (rows_at_dev clean (Pattern.DevYear p))))
    (df_pattern clean).
Proof.
  split; [apply df_pattern_sorted | split].
  - apply df_pattern_dev_years.
  - apply Forall_forall. apply df_pattern_means.
Qed.

Example df_pattern_sample :
  df_pattern (acph_table sample_policies sample_claims) =
  [{| Pattern.DevYear := -1; Pattern.AvgACPH := Fin (7 # 10) |};
   {| Pattern.DevYear := 0; Pattern.AvgACPH := Fin (3 # 2) |};
   {| Pattern.DevYear := 1; Pattern.AvgACPH := Fin 5 |};
   {| Pattern.DevYear := 2; Pattern.AvgACPH := Fin 5 |}].
Proof. vm_compute. reflexivity. Qed.

Lemma df_pattern_height clean :
  List.length (df_pattern clean) = List.length (distinct_dev_years clean).
Proof.
  rewrite <- (length_map Pattern.DevYear). apply Permutation_length.
  apply NoDup_Permutation.
  - apply (StronglySorted_lt_NoDup Pattern.DevYear), df_pattern_sorted.
  - apply NoDup_nodup.
  - intros d. unfold distinct_dev_years.
    rewrite df_pattern_dev_years, nodup_In, filter_In. intuition lia.
Qed.

(** ** The selector and the fit *)

Lemma filter_mask_all {A : Type} (l : list A) :
  Polars.filter_mask l (repeat true (List.length l)) = l.
Proof. induction l as [|a l IH]; simpl; congruence. Qed.

Lemma df_clean_no_exclusion df : df_clean df [] = Return df.
Proof. unfold df_clean. simpl. now rewrite filter_mask_all. Qed.

Section ServerFacts.
Variable popt : Type.
Variable curve_fit : SolverCall -> option popt.

Lemma fit_pattern_short pattern :
  (List.length pattern < 3)%nat ->
  fit_pattern popt curve_fit pattern = untraced None.
Proof.
  intros H. unfold fit_pattern.
  destruct (Nat.ltb_spec (List.length pattern) 3); [reflexivity | lia].
Qed.

Lemma fitted_curve_clean df_acph product idx clean :
  df_clean (filtered_data df_acph product) idx = Return clean ->
  (is_empty (filtered_data df_acph product) = true -> clean = []) /\
  fitted_curve popt curve_fit df_acph product idx =
  Return (if is_empty (filtered_data df_acph product) then untraced None
          else fit_pattern popt curve_fit (df_pattern clean)).
Proof.
  intros Hc. unfold fitted_curve.
  destruct (filtered_data df_acph product) as [|r df] eqn:E; simpl.
  - split; [|reflexivity]. intros _. unfold df_clean in Hc.
    destruct (include_mask _ idx); simpl in Hc; [|discriminate].
    now inversion Hc.
  - split; [discriminate|]. now rewrite Hc.
Qed.
End ServerFacts.

(** Two pattern points are not fitted, whatever the solver. *)
Example fit_pattern_two_points (popt : Type)
    (curve_fit : SolverCall -> option popt) :
  fit_pattern popt curve_fit
    [{| Pattern.DevYear := 1; Pattern.AvgACPH := Fin 10 |};
     {| Pattern.DevYear := 2; Pattern.AvgACPH := Fin 10 |}] =
  {| value := None; solver_calls := [] |}.
Proof. reflexivity. Qed.

(** With three points or more the solver is called once, on the pattern. *)
Example fitted_curve_sample :
  fitted_curve unit (fun _ => Some tt) sample_acph "Detached" [1%nat] =
  Return {| value := Some tt;
            solver_calls :=
              [{| x_data := [0; 1; 2];
                  y_data := [Fin 7; Fin 12; Fin 14];
                  p0 := [100; 2; 1 # 2]%Q;
                  maxfev := 5000 |}] |}.
Proof. vm_compute. reflexivity. Qed.

(** C5: when the clean subset has fewer than 3 distinct DevYear values at
    most 10, [fitted_curve] returns None and the solver is not called. *)
Theorem fitted_curve_insufficient_points (popt : Type)
    (curve_fit : SolverCall -> option popt) (df_acph : list ACPHRow.t)
    (product : string) (selected_indices : list nat)
    (clean : list ACPHRow.t) :
  df_clean (filtered_data df_acph product) selected_indices = Return clean ->
  (List.length (distinct_dev_years clean) < 3)%nat ->
  fit_pattern popt curve_fit (df_pattern clean) =
    {| value := None; solver_calls := [] |} /\
  fitted_curve popt curve_fit df_acph product selected_indices =
    Return {| value := None; solver_calls := [] |}.
Proof.
  intros Hc Hlt.
  assert (Hfit : fit_pattern popt curve_fit (df_pattern clean) = untraced None)
    by (apply fit_pattern_short; now rewrite df_pattern_height).
  split; [exact Hfit|].
  destruct (fitted_curve_clean popt curve_fit _ _ _ _ Hc) as [_ ->].
  rewrite Hfit. now destruct (is_empty _).
Qed.

Lemma fitted_curve_insufficient_points_witness :
  df_clean (filtered_data sample_acph "Flat") [] =
    Return (filtered_data sample_acph "Flat") /\
  (List.length (distinct_dev_years (filtered_data sample_acph "Flat")) < 3)%nat
  /\
  fitted_curve unit (fun _ => Some tt) sample_acph "Flat" [] =
    Return {| value := None; solver_calls := [] |}.
Proof.
  assert (Hc : df_clean (filtered_data sample_acph "Flat") [] =
               Return (filtered_data sample_acph "Flat")) by reflexivity.
  assert (Hlt : (List.length
                   (distinct_dev_years (filtered_data sample_acph "Flat"))
                 < 3)%nat) by (vm_compute; lia).
  split; [exact Hc | split; [exact Hlt|]].
  exact (proj2 (fitted_curve_insufficient_points unit (fun _ => Some tt)
                  sample_acph "Flat" [] _ Hc Hlt)).
Defined.

(** C9: with an empty exclusion set the clean subset is the whole
    product-filtered table, and the fit is run on the pattern of that whole
    table. *)
Theorem empty_exclusion_identity (popt : Type)
    (curve_fit : SolverCall -> option popt) (df_acph : list ACPHRow.t)
    (product : string) :
  df_clean (filtered_data df_acph product) [] =
    Return (filtered_data df_acph product) /\
  (clean <- df_clean (filtered_data df_acph product) [] ;;
   Return (df_pattern clean)) =
    Return (df_pattern (filtered_data df_acph product)) /\
  fitted_curve popt curve_fit df_acph product [] =
    Return (fit_pattern popt curve_fit
              (df_pattern (filtered_data df_acph product))).
Proof.
  rewrite df_clean_no_exclusion. repeat split.
  destruct (fitted_curve_clean popt curve_fit df_acph product [] _
              (df_clean_no_exclusion _)) as [Hnil ->].
  destruct (is_empty _) eqn:E; trivial.
  rewrite (Hnil eq_refl). reflexivity.
Qed.

(** ** Missing data *)

Lemma load_data_reads (fs : Path -> Dir) data_dir df_policies df_claims :
  find (fun p => exists_ (Policy_Book (fs p))) possible_paths = Some data_dir ->
  Policy_Book (fs data_dir) = Some df_policies ->
  Claims_Transaction (fs data_dir) = Some df_claims ->
  load_data fs = Return (acph_table df_policies df_claims).
Proof. intros Hf Hp Hc. unfold load_data. now rewrite Hf, Hp, Hc. Qed.

(** A policy book without its claims file is not covered by the fallback. *)
Lemma load_data_claims_missing (fs : Path -> Dir) data_dir :
  find (fun p => exists_ (Policy_Book (fs p))) possible_paths = Some data_dir ->
  Claims_Transaction (fs data_dir) = None ->
  load_data fs = Raise FileNotFoundError.
Proof.
  intros Hf Hc. unfold load_data. rewrite Hf, Hc.
  apply find_some in Hf. destruct Hf as [_ Hf].
  now destruct (Policy_Book (fs data_dir)).
Qed.

(** C4, on the code: the policy book is in the current directory and the
    claims file is missing; [load_data] finds the directory, reads the
    policies and raises FileNotFoundError on the claims, instead of using
    the fallback to the empty table. *)
Theorem load_data_without_claims_raises :
  load_data
    (fun p : Path =>
       match p with
       | Here => {| Policy_Book := Some sample_policies;
                    Claims_Transaction := None |}
       | _ => {| Policy_Book := None; Claims_Transaction := None |}
       end) =
  Raise FileNotFoundError.
Proof. reflexivity. Qed.

(** X20: when no searched directory holds the policy book, [load_data]
    returns the empty table without raising, and on the empty table the
    product filter and the grid have no rows, the fit is None with no solver
    call, and the plot is the empty "No Data Found" figure, whatever the
    selection. *)
Theorem missing_data_is_empty_state (popt : Type)
    (curve_fit : SolverCall -> option popt) (fs : Path -> Dir)
    (product : string) (selected_indices : list nat) :
  (forall p, In p possible_paths -> Policy_Book (fs p) = None) ->
  load_data fs = Return [] /\
  filtered_data [] product = [] /\
  exclusion_grid [] product = [] /\
  fitted_curve popt curve_fit [] product selected_indices =
    Return {| value := None; solver_calls := [] |} /\
  main_plot popt curve_fit [] product selected_indices =
    Return {| value := {| title := "No Data Found"; points := [];
                          curve := None |};
              solver_calls := [] |}.
Proof.
  intros Hnone. repeat split.
  unfold load_data.
  destruct (find _ possible_paths) as [p|] eqn:E; trivial.
  apply find_some in E. destruct E as [Hin Hex].
  now rewrite (Hnone p Hin) in Hex.
Qed.

Lemma missing_data_is_empty_state_witness :
  let fs := fun _ : Path =>
              {| Policy_Book := None; Claims_Transaction := None |} in
  (forall p, In p possible_paths -> Policy_Book (fs p) = None) /\
  load_data fs = Return [] /\
  fitted_curve unit (fun _ => Some tt) [] "Flat" [0%nat] =
    Return {| value := None; solver_calls := [] |}.
Proof.
  intros fs.
  assert (H : forall p, In p possible_paths -> Policy_Book (fs p) = None)
    by reflexivity.
  split; [exact H|].
  destruct (missing_data_is_empty_state unit (fun _ => Some tt) fs "Flat"
              [0%nat] H) as [Hl [_ [_ [Hf _]]]].
  split; [exact Hl | exact Hf].
Defined.

(** ** Stale exclusion indices *)

Lemma index_assign_out_of_bounds {A : Type} (v : A) idx arr i :
  In i idx -> (List.length arr <= i)%nat ->
  index_assign v idx arr = Raise IndexError.
Proof.
  intros Hin Hle. unfold index_assign.
  destruct (forallb _ idx) eqn:E; trivial.
  rewrite forallb_forall in E. specialize (E i Hin).
  apply Nat.ltb_lt in E. lia.
Qed.

Lemma fitted_curve_stale_index (popt : Type)
    (curve_fit : SolverCall -> option popt) df_acph product idx i :
  filtered_data df_acph product <> [] ->
  In i idx -> (List.length (filtered_data df_acph product) <= i)%nat ->
  fitted_curve popt curve_fit df_acph product idx = Raise IndexError /\
  main_plot popt curve_fit df_acph product idx = Raise IndexError.
Proof.
  intros Hne Hin Hle. unfold fitted_curve, main_plot, df_clean, include_mask.
  destruct (filtered_data df_acph product) as [|r df] eqn:E; [congruence|].
  destruct idx as [|j idx]; [destruct Hin|].
  cbn [is_empty].
  rewrite (index_assign_out_of_bounds false (j :: idx) _ i),
          (index_assign_out_of_bounds Excluded (j :: idx) _ i);
    trivial; try (rewrite repeat_length; exact Hle).
  now split.
Qed.

(** C3, on the code: the selection [5] left over from the six Detached rows
    meets the two Flat rows after a product switch; both the fit and the
    plot raise IndexError, whatever the solver. *)
Theorem stale_selection_raises (popt : Type)
    (curve_fit : SolverCall -> option popt) :
  List.length (filtered_data sample_acph "Flat") = 2%nat /\
  fitted_curve popt curve_fit sample_acph "Flat" [5%nat] = Raise IndexError /\
  main_plot popt curve_fit sample_acph "Flat" [5%nat] = Raise IndexError.
Proof. repeat split. Qed.

(** ** Saving the assumptions *)

Section DictFacts.
Context {V : Type}.

Lemma get_set_same k (v : V) d : Dict.get k (Dict.set k v d) = Some v.
Proof.
  induction d as [|[k' v'] d IH]; simpl.
  - now rewrite String.eqb_refl.
  - destruct (String.eqb k k') eqn:E; simpl; rewrite E; trivial.
Qed.

Lemma get_set_other k k' (v : V) d :
  k <> k' -> Dict.get k' (Dict.set k v d) = Dict.get k' d.
Proof.
  intros Hne. induction d as [|[k0 v0] d IH]; simpl.
  - destruct (String.eqb k' k) eqn:E; trivial.
    apply String.eqb_eq in E. congruence.
  - destruct (String.eqb k k0) eqn:E; simpl; [|now rewrite IH].
    apply String.eqb_eq in E. subst k0.
    destruct (String.eqb k' k) eqn:E'; trivial.
    apply String.eqb_eq in E'. congruence.
Qed.
End DictFacts.

Lemma ensure_dict_spec k d :
  ensure_dict k d =
  match Dict.get k d with
  | None => Return (Dict.set k (JObj []) d, [])
  | Some (JObj sub) => Return (d, sub)
  | Some _ => Raise TypeError
  end.
Proof.
  unfold ensure_dict, Dict.mem.
  destruct (Dict.get k d) as [j|] eqn:E.
  - rewrite E. now destruct j.
  - now rewrite get_set_same.
Qed.

Lemma filter_mask_positions (f : nat -> bool) (pre view : list ACPHRow.t) :
  Polars.filter_mask view
    (map f (seq (List.length pre) (List.length view))) =
  rows_at_positions (pre ++ view)
    (filter f (seq (List.length pre) (List.length view))).
Proof.
  revert pre. induction view as [|r view IH]; intros pre; trivial.
  cbn [List.length seq map Polars.filter_mask filter].
  specialize (IH (pre ++ [r])).
  rewrite length_app, Nat.add_1_r, <- app_assoc in IH. cbn [app] in IH.
  rewrite IH. destruct (f (List.length pre)); trivial.
  unfold rows_at_positions. cbn [flat_map].
  rewrite nth_error_app2, Nat.sub_diag by lia. reflexivity.
Qed.

Lemma excluded_points_rows view idx :
  excluded_points view idx = map point_json (excluded_rows view idx).
Proof.
  unfold excluded_points, excluded_rows, valid_positions, np_isin, np_arange.
  destruct idx as [|i idx].
  - cbn [existsb]. induction (seq 0 (List.length view)); trivial.
  - now rewrite (filter_mask_positions _ []).
Qed.

Lemma excluded_rows_In view idx r :
  In r (excluded_rows view idx) <->
  exists i, In i idx /\ (i < List.length view)%nat /\
            nth_error view i = Some r.
Proof.
  unfold excluded_rows, rows_at_positions, valid_positions.
  rewrite in_flat_map. split.
  - intros [i [Hi Hr]]. apply filter_In in Hi. destruct Hi as [Hi He].
    apply in_seq in Hi. apply existsb_exists in He.
    destruct He as [j [Hj Heq]]. apply Nat.eqb_eq in Heq. subst j.
    exists i. repeat split; trivial; [lia|].
    destruct (nth_error view i); [|destruct Hr].
    destruct Hr as [->|[]]. reflexivity.
  - intros [i [Hi [Hlt Hn]]]. exists i. split.
    + apply filter_In. split; [apply in_seq; lia|].
      apply existsb_exists. exists i. split; trivial. apply Nat.eqb_refl.
    + rewrite Hn. now left.
Qed.

Lemma valid_positions_in_range n idx :
  valid_positions n idx =
  valid_positions n (filter (fun i => (i <? n)%nat) idx).
Proof.
  unfold valid_positions. apply filter_ext_in. intros i Hi.
  apply in_seq in Hi.
  destruct (existsb (Nat.eqb i) idx) eqn:E.
  - apply existsb_exists in E. destruct E as [j [Hj Heq]].
    symmetry. apply existsb_exists. exists j. split; trivial.
    apply filter_In. split; trivial.
    apply Nat.eqb_eq in Heq. subst j. apply Nat.ltb_lt. lia.
  - destruct (existsb (Nat.eqb i) (filter _ idx)) eqn:E'; trivial.
    apply existsb_exists in E'. destruct E' as [j [Hj Heq]].
    apply filter_In in Hj. destruct Hj as [Hj _].
    assert (existsb (Nat.eqb i) idx = true)
      by (apply existsb_exists; now exists j).
    congruence.
Qed.

(** What [save] writes, in terms of the dicts it found or created. *)
Lemma save_result file df_acph prod idx :
  persisted_ok file prod = true ->
  exists d products entry,
    save file df_acph prod idx =
    Return
      (JObj (Dict.set "products"
               (JObj (Dict.set prod
                        (JObj (Dict.set "excluded_points"
                                 (JArr (excluded_points
                                          (filtered_data df_acph prod) idx))
                                 entry))
                        products))
               d),
       {| message :=
            "Saved "
            ++ str_of_nat
                 (List.length
                    (excluded_points (filtered_data df_acph prod) idx))
            ++ " exclusions for " ++ prod ++ "!";
          type_ := "success" |}) /\
    forall q, q <> prod -> Dict.get q products = product_entry file q.
Proof.
  intros Hok. unfold save.
  destruct file as [j|]; cbn [persisted_ok] in Hok.
  - destruct j as [| | | | |d]; try discriminate. cbn [as_dict bind].
    rewrite ensure_dict_spec. cbn [product_entry].
    destruct (Dict.get "products" d) as [ps|] eqn:Ep.
    + destruct ps as [| | | | |products]; try discriminate. cbn [bind].
      rewrite ensure_dict_spec.
      destruct (Dict.get prod products) as [e|] eqn:Ee.
      * destruct e as [| | | | |entry]; try discriminate. cbn [bind].
        exists d, products, entry. split; reflexivity.
      * cbn [bind]. exists d, (Dict.set prod (JObj []) products), [].
        split; [reflexivity|].
        intros q Hq. apply get_set_other. congruence.
    + cbn [bind]. rewrite ensure_dict_spec. cbn [Dict.get bind].
      exists (Dict.set "products" (JObj []) d), [(prod, JObj [])], [].
      split; [reflexivity|].
      intros q Hq. cbn [Dict.get].
      destruct (String.eqb q prod) eqn:E; trivial.
      apply String.eqb_eq in E. congruence.
  - cbn [as_dict bind]. rewrite ensure_dict_spec.
    cbn [Dict.get String.eqb Ascii.eqb Bool.eqb bind].
    rewrite ensure_dict_spec. cbn [Dict.get bind].
    exists [("products", JObj [])], [(prod, JObj [])], [].
    split; [reflexivity|].
    intros q Hq. cbn [Dict.get product_entry].
    destruct (String.eqb q prod) eqn:E; trivial.
    apply String.eqb_eq in E. congruence.
Qed.

Lemma saved_points_written d products entry prod pts :
  saved_points
    (Some (JObj (Dict.set "products"
                   (JObj (Dict.set prod
                            (JObj (Dict.set "excluded_points" pts entry))
                            products))
                   d)))
    prod = Some pts.
Proof.
  unfold saved_points, product_entry.
  now rewrite !get_set_same.
Qed.

Lemma product_entry_written d products entry prod q :
  product_entry
    (Some (JObj (Dict.set "products" (JObj (Dict.set prod entry products)) d)))
    q =
  if String.eqb q prod then Some entry else Dict.get q products.
Proof.
  unfold product_entry. rewrite get_set_same.
  destruct (String.eqb q prod) eqn:E.
  - apply String.eqb_eq in E. subst. apply get_set_same.
  - apply get_set_other. intros ->. now rewrite String.eqb_refl in E.
Qed.

(** A document that is not an object stops [save] with a TypeError. *)
Example save_on_array :
  save (Some (JArr [])) sample_acph "Detached" [0%nat] = Raise TypeError.
Proof. reflexivity. Qed.

(** C6: on a persisted document of the shape [save] writes (or none yet),
    [save] for product P writes a document whose entry for P holds exactly
    the {CohortYear, DevYear} pairs of the rows excluded at save time, keeps
    the entry of every other product, and shows a success notification with
    the number of saved points; without excluded points it saves the empty
    list and reports 0. *)
Theorem save_replaces_one_product (file : option json)
    (df_acph : list ACPHRow.t) (prod : string) (selected_indices : list nat) :
  persisted_ok file prod = true ->
  let excluded :=
    excluded_rows (filtered_data df_acph prod) selected_indices in
  exists data,
    save file df_acph prod selected_indices =
      Return (data,
              {| message := "Saved " ++ str_of_nat (List.length excluded)
                            ++ " exclusions for " ++ prod ++ "!";
                 type_ := "success" |}) /\
    saved_points (Some data) prod = Some (JArr (map point_json excluded)) /\
    (forall q, q <> prod ->
               product_entry (Some data) q = product_entry file q) /\
    (selected_indices = [] ->
     excluded = [] /\ str_of_nat (List.length excluded) = "0").
Proof.
  intros Hok excluded.
  destruct (save_result file df_acph prod selected_indices Hok)
    as [d [products [entry [Hsave Hother]]]].
  rewrite excluded_points_rows in Hsave. fold excluded in Hsave.
  rewrite length_map in Hsave.
  eexists. split; [exact Hsave|]. split; [apply saved_points_written|].
  split.
  - intros q Hq. rewrite product_entry_written.
    destruct (String.eqb q prod) eqn:E; [|now apply Hother].
    apply String.eqb_eq in E. congruence.
  - intros ->. subst excluded. unfold excluded_rows, valid_positions.
    cbn [existsb].
    assert (Hnil : forall l : list nat, filter (fun _ => false) l = [])
      by (intros l; induction l; trivial).
    now rewrite Hnil.
Qed.

Lemma save_replaces_one_product_witness :
  persisted_ok (Some sample_file) "Detached" = true /\
  exists data,
    saved_points (Some data) "Detached" =
      Some (JArr [JObj [("CohortYear", JInt 2020); ("DevYear", JInt 0)];
                  JObj [("CohortYear", JInt 2020); ("DevYear", JInt 1)]]) /\
    product_entry (Some data) "Flat" = product_entry (Some sample_file) "Flat".
Proof.
  split; [reflexivity|].
  destruct (save_replaces_one_product (Some sample_file) sample_acph
              "Detached" [0%nat; 1%nat] eq_refl)
    as [data [_ [Hpts [Hother _]]]].
  exists data. split; [exact Hpts|].
  apply Hother. discriminate.
Defined.

(** C10: [save] persists exactly the pairs of the rows whose position is in
    the exclusion set and below the row count of the product view; positions
    at or beyond the row count are dropped without an error, so every
    persisted pair comes from a row of the current view. *)
Theorem save_drops_stale_indices (file : option json)
    (df_acph : list ACPHRow.t) (prod : string) (selected_indices : list nat) :
  persisted_ok file prod = true ->
  let view := filtered_data df_acph prod in
  exists data note pts,
    save file df_acph prod selected_indices = Return (data, note) /\
    saved_points (Some data) prod = Some (JArr pts) /\
    pts = map point_json
            (rows_at_positions view
               (valid_positions (List.length view) selected_indices)) /\
    pts = excluded_points view
            (filter (fun i => (i <? List.length view)%nat) selected_indices) /\
    (forall pt,
        In pt pts <->
        exists i r, In i selected_indices /\ (i < List.length view)%nat /\
                    nth_error view i = Some r /\ pt = point_json r).
Proof.
  intros Hok view.
  destruct (save_result file df_acph prod selected_indices Hok)
    as [d [products [entry [Hsave _]]]].
  fold view in Hsave.
  do 3 eexists. split; [exact Hsave|]. split; [apply saved_points_written|].
  split; [apply excluded_points_rows|]. split.
  - rewrite !excluded_points_rows. unfold excluded_rows.
    now rewrite <- valid_positions_in_range.
  - intros pt. rewrite excluded_points_rows, in_map_iff. split.
    + intros [r [<- Hr]]. apply excluded_rows_In in Hr.
      destruct Hr as [i [Hi [Hlt Hn]]]. now exists i, r.
    + intros [i [r [Hi [Hlt [Hn ->]]]]]. exists r. split; trivial.
      apply excluded_rows_In. now exists i.
Qed.

Lemma save_drops_stale_indices_witness :
  persisted_ok None "Flat" = true /\
  exists data,
    saved_points (Some data) "Flat" =
      Some (JArr [JObj [("CohortYear", JInt 2020); ("DevYear", JInt 1)]]).
Proof.
  split; [reflexivity|].
  destruct (save_drops_stale_indices None sample_acph "Flat"
              [5%nat; 1%nat] eq_refl)
    as [data [note [pts [_ [Hpts [Hrows _]]]]]].
  exists data. rewrite Hpts, Hrows. reflexivity.
Defined.

(** ** The curve at its floor *)

Section CurveFacts.
Local Open Scope R_scope.

Lemma np_power_positive (x y : R) : 0 < x -> np_power x y = Some (Rpower x y).
Proof.
  intros Hx. unfold np_power. destruct (Rlt_dec 0 x); [reflexivity | tauto].
Qed.

Lemma t_safe_positive (t : R) : 0 < Rmax t (1 / 10).
Proof.
  apply Rlt_le_trans with (1 / 10); [lra | apply Rmax_r].
Qed.

(** The floor keeps the base of the power positive: the curve is a real
    number at every [t]. *)
Lemma actuarial_curve_defined (t A B C : R) :
  actuarial_curve t A B C =
  Some (A * Rpower (Rmax t (1 / 10)) B * exp (- C * Rmax t (1 / 10))).
Proof.
  unfold actuarial_curve.
  now rewrite (np_power_positive _ B (t_safe_positive t)).
Qed.

(** C8: for every t at most 0.1 (zero and negative t included) and all real
    A, B, C, the curve evaluates, without a domain error, to
    A * 0.1^B * exp(-0.1 * C). *)
Theorem actuarial_curve_floor (t A B C : R) :
  t <= 1 / 10 ->
  actuarial_curve t A B C =
  Some (A * Rpower (1 / 10) B * exp (- (1 / 10) * C)).
Proof.
  intros Ht. rewrite actuarial_curve_defined, (Rmax_right t (1 / 10) Ht).
  do 3 f_equal. lra.
Qed.

Lemma actuarial_curve_floor_witness :
  -3 <= 1 / 10 /\
  actuarial_curve (-3) 100 2 (1 / 2) =
  Some (100 * Rpower (1 / 10) 2 * exp (- (1 / 10) * (1 / 2))).
Proof.
  assert (H : -3 <= 1 / 10) by lra.
  split; [exact H | exact (actuarial_curve_floor (-3) 100 2 (1 / 2) H)].
Defined.
End CurveFacts.

(** * Further properties of the code *)

(** ** The aggregation: one row per bucket *)

Lemma filter_unique_key {B K : Type} (eqb : K -> K -> bool)
    (eqb_eq : forall a b, eqb a b = true <-> a = b) (kr : B -> K) x l :
  NoDup (map kr l) ->
  (List.length (filter (fun b => eqb x (kr b)) l) <= 1)%nat.
Proof.
  induction l as [|b l IH]; simpl; intros Hnd; [lia|].
  inversion Hnd as [|? ? Hnot Hnd']; subst.
  destruct (eqb x (kr b)) eqn:E; [|now apply IH].
  apply eqb_eq in E. subst x. simpl.
  assert (Hnil : filter (fun b' => eqb (kr b) (kr b')) l = []).
  { destruct (filter _ l) as [|b' t] eqn:Ef; trivial.
    assert (Hin : In b' (filter (fun b' => eqb (kr b) (kr b')) l))
      by (rewrite Ef; now left).
    apply filter_In in Hin. destruct Hin as [Hin Hk].
    apply eqb_eq in Hk. exfalso. apply Hnot. rewrite Hk. now apply in_map. }
  rewrite Hnil. simpl. lia.
Qed.

Lemma NoDup_constant {K : Type} (k : K) (l : list K) :
  (List.length l <= 1)%nat -> NoDup l.
Proof.
  destruct l as [|a [|b l]]; simpl; intros H.
  - constructor.
  - constructor; [tauto | constructor].
  - lia.
Qed.

(** A join whose right key is unique keeps a unique left key unique. *)
Lemma join_keys_NoDup {A B C K KC : Type} (eqb : K -> K -> bool)
    (eqb_eq : forall a b, eqb a b = true <-> a = b)
    (kl : A -> K) (kr : B -> K) (mk : A -> B -> C)
    (ka : A -> KC) (kc : C -> KC) left right :
  (forall a b, kc (mk a b) = ka a) ->
  NoDup (map ka left) -> NoDup (map kr right) ->
  NoDup (map kc (Polars.join eqb kl kr mk left right)).
Proof.
  intros Hkey Hl Hr. unfold Polars.join.
  induction left as [|a left IH]; cbn [flat_map map]; [constructor|].
  inversion Hl as [|? ? Hnot Hl']; subst.
  rewrite map_app. apply NoDup_app.
  - apply (NoDup_constant (ka a)). rewrite !length_map.
    now apply (filter_unique_key eqb eqb_eq).
  - now apply IH.
  - intros k Hk1 Hk2. apply Hnot.
    apply in_map_iff in Hk1. destruct Hk1 as [c [<- Hc]].
    apply in_map_iff in Hc. destruct Hc as [b [<- _]]. rewrite Hkey in Hk2.
    apply in_map_iff in Hk2. destruct Hk2 as [c' [Hc' Hin]].
    apply in_flat_map in Hin. destruct Hin as [a' [Ha' Hin]].
    apply in_map_iff in Hin. destruct Hin as [b' [<- _]].
    rewrite Hkey in Hc'. rewrite <- Hc'. now apply in_map.
Qed.

Lemma acph_table_keys_NoDup df_policies df_claims :
  NoDup (map acph_key (acph_table df_policies df_claims)).
Proof.
  unfold acph_table.
  eapply Permutation_NoDup.
  - symmetry. apply Permutation_map, sort_perm.
  - apply (join_keys_NoDup Z.eqb Z.eqb_eq) with (ka := dev_row_key).
    + reflexivity.
    + rewrite claims_dev_keys. apply (group_by_NoDup key3_eqb key3_eqb_eq).
    + rewrite exposure_cohorts. apply (group_by_NoDup Z.eqb Z.eqb_eq).
Qed.

(** X1: the exposure table has exactly one row per CohortYear that occurs
    among the policies, and that row carries the sum of NumHomes over all
    policies of the cohort, whatever their product. *)
Theorem exposure_one_row_per_cohort (df_policies : list Policy.t) :
  NoDup (map Exposure.CohortYear (exposure df_policies)) /\
  (forall c, In c (map Exposure.CohortYear (exposure df_policies)) <->
             In c (map Policy.CohortYear df_policies)) /\
  Forall
    (fun e =>
       Exposure.TotalHomes e =
       cohort_homes df_policies (Exposure.CohortYear e))
    (exposure df_policies).
Proof.
  split; [|split].
  - rewrite exposure_cohorts. apply (group_by_NoDup Z.eqb Z.eqb_eq).
  - apply exposure_cohort_In.
  - apply Forall_forall. intros e He. now apply exposure_In in He.
Qed.

(** X2: no two rows of the ACPH table share their
    (CohortYear, DevYear, ProductType) bucket. *)
Theorem acph_table_one_row_per_bucket (df_policies : list Policy.t)
    (df_claims : list Claim.t) :
  NoDup (map acph_key (acph_table df_policies df_claims)).
Proof. apply acph_table_keys_NoDup. Qed.

(** X3: the ACPH table has a row for a bucket exactly when some claim,
    joined on PolicyID to a policy of that CohortYear and ProductType, is
    reported DevYear years after the cohort year; claims without a policy
    give no row, and the join with the exposure drops none. *)
Theorem acph_table_row_iff_claim (df_policies : list Policy.t)
    (df_claims : list Claim.t) (cohort dev : Z) (product : string) :
  In (cohort, dev, product)
     (map acph_key (acph_table df_policies df_claims)) <->
  exists c p,
    In c df_claims /\ In p df_policies /\
    Claim.PolicyID c = Policy.PolicyID p /\
    Policy.CohortYear p = cohort /\
    year (Claim.ReportDate c) - cohort = dev /\
    Policy.ProductType p = product.
Proof.
  rewrite acph_table_key_In, claims_dev_key_In.
  split; intros [c [p [Hc [Hp [Hk H]]]]]; exists c, p.
  - inversion H; subst. repeat split; trivial.
  - destruct H as [<- [<- <-]]. repeat split; trivial.
Qed.

(** ** The product view *)

Lemma acph_table_sorted df_policies df_claims :
  StronglySorted acph_le (acph_table df_policies df_claims).
Proof.
  apply Sorted_StronglySorted; [intros a b c; apply acph_le_trans|].
  unfold acph_table.
  eapply Sorted_weaken; [|apply (sort_sorted acph_leb acph_leb_total)].
  intros a b. apply acph_leb_le.
Qed.

Lemma StronglySorted_distinct {A K : Type} (R : A -> A -> Prop) (k : A -> K) l :
  StronglySorted R l -> NoDup (map k l) ->
  StronglySorted (fun a b => R a b /\ k a <> k b) l.
Proof.
  induction 1 as [|a l Hs IH Hall]; simpl; intros Hnd; [constructor|].
  inversion Hnd as [|? ? Hnot Hnd']; subst. constructor; [now apply IH|].
  apply Forall_forall. intros x Hx. rewrite Forall_forall in Hall.
  split; [now apply Hall|].
  intros E. apply Hnot. rewrite E. now apply in_map.
Qed.

Lemma StronglySorted_weaken_In {A : Type} (R S : A -> A -> Prop) l :
  (forall a b, In a l -> In b l -> R a b -> S a b) ->
  StronglySorted R l -> StronglySorted S l.
Proof.
  intros HRS Hs. induction Hs as [|a l Hs IH Hall]; constructor.
  - apply IH. intros x y Hx Hy. apply HRS; now right.
  - apply Forall_forall. intros x Hx. rewrite Forall_forall in Hall.
    apply HRS; [now left | now right | now apply Hall].
Qed.

Lemma filtered_data_filter df_acph product :
  filtered_data df_acph product =
  filter (fun r => String.eqb (ACPHRow.ProductType r) product) df_acph.
Proof. now destruct df_acph. Qed.

Lemma compare_same (s : string) : String.compare s s = Eq.
Proof.
  pose proof (String.compare_antisym s s) as H.
  destruct (String.compare s s); trivial; discriminate.
Qed.

Lemma view_lt_of_acph_le r1 r2 :
  ACPHRow.ProductType r1 = ACPHRow.ProductType r2 ->
  acph_le r1 r2 -> acph_key r1 <> acph_key r2 -> view_lt r1 r2.
Proof.
  intros Hp [Hlt|[_ H]] Hne.
  - rewrite Hp, compare_same in Hlt. discriminate.
  - unfold view_lt. destruct H as [H|[Hc Hd]]; [now left|]. right.
    split; trivial.
    assert (ACPHRow.DevYear r1 <> ACPHRow.DevYear r2); [|lia].
    intros E. apply Hne. unfold acph_key. now rewrite Hc, E, Hp.
Qed.

Lemma view_lt_points_NoDup l :
  StronglySorted view_lt l -> NoDup (map point_json l).
Proof.
  induction 1 as [|a l Hs IH Hall]; simpl; constructor; trivial.
  intros Hin. apply in_map_iff in Hin. destruct Hin as [x [E Hx]].
  rewrite Forall_forall in Hall. specialize (Hall x Hx).
  unfold point_json in E. inversion E. unfold view_lt in Hall. lia.
Qed.

Lemma product_view_strict df_policies df_claims product :
  StronglySorted view_lt
    (filtered_data (acph_table df_policies df_claims) product).
Proof.
  rewrite filtered_data_filter.
  apply StronglySorted_weaken_In
    with (R := fun a b => acph_le a b /\ acph_key a <> acph_key b).
  - intros a b Ha Hb [Hle Hne].
    apply filter_In in Ha, Hb. destruct Ha as [_ Ha], Hb as [_ Hb].
    apply String.eqb_eq in Ha, Hb.
    apply view_lt_of_acph_le; trivial. congruence.
  - apply StronglySorted_filter, StronglySorted_distinct.
    + apply acph_table_sorted.
    + apply acph_table_keys_NoDup.
Qed.

(** X4: the product view of the ACPH table holds rows of the selected
    product only, in strictly ascending (CohortYear, DevYear) order; so no
    two rows of a view share their {CohortYear, DevYear} pair, and the pairs
    written by [save] identify the rows of the view. *)
Theorem product_view_sorted_unique (df_policies : list Policy.t)
    (df_claims : list Claim.t) (product : string) :
  let view := filtered_data (acph_table df_policies df_claims) product in
  Forall (fun r => ACPHRow.ProductType r = product) view /\
  StronglySorted view_lt view /\
  NoDup (map point_json view).
Proof.
  split; [|split].
  - rewrite filtered_data_filter. apply Forall_forall. intros r Hr.
    apply filter_In in Hr. now apply String.eqb_eq.
  - apply product_view_strict.
  - apply view_lt_points_NoDup, product_view_strict.
Qed.

(** ** The search for the datasets *)

Lemma load_data_first_dir (fs : Path -> Dir) dir df_policies :
  (forall p, In p (searched_before dir) -> Policy_Book (fs p) = None) ->
  Policy_Book (fs dir) = Some df_policies ->
  find (fun p => exists_ (Policy_Book (fs p))) possible_paths = Some dir.
Proof.
  intros Hbefore Hbook. unfold possible_paths.
  destruct dir; cbn [find searched_before] in *.
  - now rewrite Hbook.
  - rewrite (Hbefore Here) by now left. cbn [exists_]. now rewrite Hbook.
  - rewrite (Hbefore Here) by now left.
    rewrite (Hbefore Parent) by (right; now left).
    cbn [exists_]. now rewrite Hbook.
Qed.

(** X5: [load_data] takes both files from the first of ".", "..", "../.."
    that holds Policy_Book.parquet; when that directory has no
    Claims_Transaction.parquet it raises FileNotFoundError, without looking
    at the later directories and without falling back to the empty table. *)
Theorem load_data_search_order (fs : Path -> Dir) (dir : Path)
    (df_policies : list Policy.t) :
  (forall p, In p (searched_before dir) -> Policy_Book (fs p) = None) ->
  Policy_Book (fs dir) = Some df_policies ->
  load_data fs =
  match Claims_Transaction (fs dir) with
  | Some df_claims => Return (acph_table df_policies df_claims)
  | None => Raise FileNotFoundError
  end.
Proof.
  intros Hbefore Hbook. unfold load_data.
  rewrite (load_data_first_dir fs dir df_policies Hbefore Hbook), Hbook.
  now destruct (Claims_Transaction (fs dir)).
Qed.

Lemma load_data_search_order_witness :
  let fs := fun p : Path =>
              match p with
              | Here => {| Policy_Book := None; Claims_Transaction := None |}
              | Parent => {| Policy_Book := Some sample_policies;
                             Claims_Transaction := None |}
              | GrandParent => {| Policy_Book := Some sample_policies;
                                  Claims_Transaction := Some sample_claims |}
              end in
  (forall p, In p (searched_before Parent) -> Policy_Book (fs p) = None) /\
  Policy_Book (fs Parent) = Some sample_policies /\
  load_data fs = Raise FileNotFoundError.
Proof.
  intros fs.
  assert (H : forall p, In p (searched_before Parent) ->
                        Policy_Book (fs p) = None).
  { intros p [<-|[]]. reflexivity. }
  split; [exact H|]. split; [reflexivity|].
  exact (load_data_search_order fs Parent sample_policies H eq_refl).
Defined.

(** ** The selector *)

Lemma repeat_as_map {A : Type} (x : A) s n :
  repeat x n = map (fun _ => x) (seq s n).
Proof. revert s. induction n as [|n IH]; intros s; simpl; f_equal; auto. Qed.

Lemma list_set_map {A : Type} (g : nat -> A) v i s n :
  list_set i v (map g (seq s n)) =
  map (fun j => if (j =? s + i)%nat then v else g j) (seq s n).
Proof.
  revert i s. induction n as [|n IH]; intros i s; [now destruct i|].
  cbn [seq map]. destruct i as [|i]; cbn [list_set].
  - rewrite Nat.add_0_r, Nat.eqb_refl. f_equal.
    apply map_ext_in. intros j Hj. apply in_seq in Hj.
    destruct (Nat.eqb_spec j s); [lia | reflexivity].
  - destruct (Nat.eqb_spec s (s + S i)); [lia|]. f_equal.
    rewrite IH. apply map_ext. intros j.
    now replace (S s + i)%nat with (s + S i)%nat by lia.
Qed.

Lemma assign_map {A : Type} (g : nat -> A) v idx n :
  fold_left (fun a i => list_set i v a) idx (map g (seq 0 n)) =
  map (fun j => if existsb (Nat.eqb j) idx then v else g j) (seq 0 n).
Proof.
  revert g. induction idx as [|i idx IH]; intros g; [reflexivity|].
  cbn [fold_left]. rewrite list_set_map, IH. apply map_ext. intros j.
  cbn [existsb Nat.add].
  destruct (Nat.eqb j i), (existsb (Nat.eqb j) idx); reflexivity.
Qed.

Lemma index_assign_repeat {A : Type} (v x : A) idx n :
  index_assign v idx (repeat x n) =
  if forallb (fun i => (i <? n)%nat) idx
  then Return (map (fun j => if existsb (Nat.eqb j) idx then v else x)
                 (seq 0 n))
  else Raise IndexError.
Proof.
  unfold index_assign. rewrite repeat_length.
  destruct (forallb _ idx); trivial.
  now rewrite (repeat_as_map x 0), assign_map.
Qed.

Lemma include_mask_spec n idx :
  include_mask n idx =
  if forallb (fun i => (i <? n)%nat) idx
  then Return (map (fun j => negb (existsb (Nat.eqb j) idx)) (seq 0 n))
  else Raise IndexError.
Proof.
  unfold include_mask. destruct idx as [|i idx].
  - cbn [forallb existsb negb]. now rewrite (repeat_as_map true 0).
  - rewrite index_assign_repeat. now destruct (forallb _ (i :: idx)).
Qed.

Lemma df_clean_spec df idx :
  df_clean df idx =
  if forallb (fun i => (i <? List.length df)%nat) idx
  then Return (rows_at_positions df
                 (included_positions (List.length df) idx))
  else Raise IndexError.
Proof.
  unfold df_clean. rewrite include_mask_spec.
  destruct (forallb _ idx); trivial. cbn [bind].
  now rewrite (filter_mask_positions _ []).
Qed.

Lemma forallb_in_range n idx :
  forallb (fun i => (i <? n)%nat) idx = true <->
  Forall (fun i => (i < n)%nat) idx.
Proof.
  rewrite forallb_forall, Forall_forall.
  split; intros H i Hi; specialize (H i Hi); now apply Nat.ltb_lt.
Qed.

Lemma forallb_stale n idx :
  forallb (fun i => (i <? n)%nat) idx = false <->
  exists i, In i idx /\ (n <= i)%nat.
Proof.
  induction idx as [|j idx IH]; cbn [forallb].
  - split; [discriminate | intros [i [[] _]]].
  - rewrite andb_false_iff, IH, Nat.ltb_ge. split.
    + intros [H|[i [Hi Hle]]]; [exists j | exists i]; split; trivial;
        [now left | now right].
    + intros [i [[<-|Hi] Hle]]; [now left | right; now exists i].
Qed.

Lemma filter_mask_partition {A : Type} (l : list A) mask :
  List.length mask = List.length l ->
  Permutation (Polars.filter_mask l mask
               ++ Polars.filter_mask l (map negb mask)) l.
Proof.
  revert mask. induction l as [|a l IH]; intros [|b mask] Hlen;
    try discriminate; [constructor|].
  injection Hlen as Hlen. specialize (IH mask Hlen).
  destruct b; cbn [map negb Polars.filter_mask].
  - cbn [app]. now constructor.
  - symmetry. apply Permutation_cons_app. now symmetry.
Qed.

Lemma rows_at_filter (f : nat -> bool) (df : list ACPHRow.t) :
  rows_at_positions df (filter f (seq 0 (List.length df))) =
  Polars.filter_mask df (map f (seq 0 (List.length df))).
Proof. symmetry. exact (filter_mask_positions f [] df). Qed.

Lemma clean_excluded_partition df idx :
  Permutation
    (rows_at_positions df (included_positions (List.length df) idx)
     ++ excluded_rows df idx)
    df.
Proof.
  unfold excluded_rows, included_positions, valid_positions.
  rewrite !rows_at_filter, Permutation_app_comm.
  rewrite <- (map_map (fun i => existsb (Nat.eqb i) idx) negb).
  apply filter_mask_partition. now rewrite length_map, length_seq.
Qed.

(** X6: when every selected position is below the row count, [df_clean] is
    the rows of the view at the positions outside the selection, in view
    order; together with the rows that [save] persists they make up the
    whole view, each row once. *)
Theorem df_clean_in_range (df : list ACPHRow.t) (selected_indices : list nat) :
  Forall (fun i => (i < List.length df)%nat) selected_indices ->
  let clean :=
    rows_at_positions df
      (included_positions (List.length df) selected_indices) in
  df_clean df selected_indices = Return clean /\
  Permutation (clean ++ excluded_rows df selected_indices) df.
Proof.
  intros Hin clean. split; [|apply clean_excluded_partition].
  rewrite df_clean_spec. apply forallb_in_range in Hin. now rewrite Hin.
Qed.

Lemma df_clean_in_range_witness :
  Forall (fun i => (i < List.length (filtered_data sample_acph "Detached"))%nat)
    [4%nat; 0%nat; 4%nat] /\
  df_clean (filtered_data sample_acph "Detached") [4%nat; 0%nat; 4%nat] =
  Return [sample_row "Detached" 2020 1 300 10;
          sample_row "Detached" 2020 2 200 10;
          sample_row "Detached" 2021 0 80 20;
          sample_row "Detached" 2021 2 160 20].
Proof.
  assert (H : Forall
                (fun i =>
                   (i < List.length (filtered_data sample_acph "Detached"))%nat)
                [4%nat; 0%nat; 4%nat])
    by (repeat constructor).
  split; [exact H|].
  exact (proj1 (df_clean_in_range _ _ H)).
Defined.

(** ** The fit, the plot and the parameter table *)

Section RenderFacts.
Variable popt : Type.
Variable curve_fit : SolverCall -> option popt.

Lemma fitted_curve_spec df_acph product idx :
  fitted_curve popt curve_fit df_acph product idx =
  let view := filtered_data df_acph product in
  if is_empty view then Return (untraced None)
  else if forallb (fun i => (i <? List.length view)%nat) idx
  then Return (fit_pattern popt curve_fit
                 (df_pattern
                    (rows_at_positions view
                       (included_positions (List.length view) idx))))
  else Raise IndexError.
Proof.
  unfold fitted_curve. cbn zeta.
  destruct (is_empty (filtered_data df_acph product)); trivial.
  rewrite df_clean_spec. now destruct (forallb _ idx).
Qed.

Lemma main_plot_spec df_acph product idx :
  main_plot popt curve_fit df_acph product idx =
  let view := filtered_data df_acph product in
  if is_empty view
  then Return (untraced {| title := "No Data Found"; points := [];
                           curve := None |})
  else if forallb (fun i => (i <? List.length view)%nat) idx
  then
    let fit :=
      fit_pattern popt curve_fit
        (df_pattern
           (rows_at_positions view
              (included_positions (List.length view) idx))) in
    Return {| value :=
                {| title := "ACPH Analysis: " ++ product;
                   points :=
                     combine view
                       (map (fun j => if existsb (Nat.eqb j) idx
                                      then Excluded else Included)
                          (seq 0 (List.length view)));
                   curve := value fit |};
              solver_calls := solver_calls fit |}
  else Raise IndexError.
Proof.
  unfold main_plot. cbn zeta. rewrite fitted_curve_spec. cbn zeta.
  destruct (is_empty (filtered_data df_acph product)); trivial.
  destruct idx as [|i idx].
  - cbn [forallb bind existsb]. now rewrite (repeat_as_map Included 0).
  - rewrite index_assign_repeat. now destruct (forallb _ (i :: idx)).
Qed.

Lemma StronglySorted_map_dev pattern :
  StronglySorted pattern_lt pattern ->
  StronglySorted Z.lt (map Pattern.DevYear pattern).
Proof.
  induction 1 as [|a l Hs IH Hall]; simpl; constructor; trivial.
  apply Forall_forall. intros x Hx. apply in_map_iff in Hx.
  destruct Hx as [p [<- Hp]]. rewrite Forall_forall in Hall.
  now apply Hall.
Qed.

(** What [fit_pattern] does with the pattern of a clean subset. *)
Lemma fit_pattern_contract clean :
  let out := fit_pattern popt curve_fit (df_pattern clean) in
  (value out = None /\ solver_calls out = []) \/
  exists call,
    solver_calls out = [call] /\ value out = curve_fit call /\
    (3 <= List.length (x_data call))%nat /\
    List.length (y_data call) = List.length (x_data call) /\
    StronglySorted Z.lt (x_data call) /\
    Forall (fun x => x <= 10) (x_data call) /\
    p0 call = [100; 2; 1 # 2]%Q /\ maxfev call = 5000.
Proof.
  unfold fit_pattern.
  destruct (Nat.ltb_spec (List.length (df_pattern clean)) 3) as [Hl|Hl];
    [left; now split | right].
  eexists. split; [reflexivity|]. cbn [solver_calls value x_data y_data p0
                                       maxfev].
  repeat split.
  - now rewrite length_map.
  - now rewrite !length_map.
  - apply StronglySorted_map_dev, df_pattern_sorted.
  - apply Forall_forall. intros x Hx. now apply df_pattern_dev_years in Hx.
Qed.

Lemma fitted_curve_contract df_acph product idx out :
  fitted_curve popt curve_fit df_acph product idx = Return out ->
  (value out = None /\ solver_calls out = []) \/
  exists call,
    solver_calls out = [call] /\ value out = curve_fit call /\
    (3 <= List.length (x_data call))%nat /\
    List.length (y_data call) = List.length (x_data call) /\
    StronglySorted Z.lt (x_data call) /\
    Forall (fun x => x <= 10) (x_data call) /\
    p0 call = [100; 2; 1 # 2]%Q /\ maxfev call = 5000.
Proof.
  rewrite fitted_curve_spec. cbn zeta.
  destruct (is_empty _).
  - intros H. inversion H. left. now split.
  - destruct (forallb _ idx); [|discriminate].
    intros H. inversion H. apply fit_pattern_contract.
Qed.
End RenderFacts.

(** X7: [fitted_curve] and [main_plot] raise only an IndexError, and exactly
    when the product view is not empty and some selected position is at or
    beyond its row count; a failing solver never makes them raise, and on
    an empty view stale positions are harmless. *)
Theorem render_raises_iff_stale (popt : Type)
    (curve_fit : SolverCall -> option popt) (df_acph : list ACPHRow.t)
    (product : string) (selected_indices : list nat) (e : exn) :
  let view := filtered_data df_acph product in
  let stale :=
    e = IndexError /\ view <> [] /\
    exists i, In i selected_indices /\ (List.length view <= i)%nat in
  (fitted_curve popt curve_fit df_acph product selected_indices = Raise e
   <-> stale) /\
  (main_plot popt curve_fit df_acph product selected_indices = Raise e
   <-> stale).
Proof.
  cbn zeta. rewrite fitted_curve_spec, main_plot_spec. cbn zeta.
  destruct (filtered_data df_acph product) as [|r view] eqn:Ev;
    cbn [is_empty].
  - split; (split; [discriminate | intros [_ [H _]]; congruence]).
  - destruct (forallb _ selected_indices) eqn:Ef.
    + split; (split; [discriminate|]); intros [_ [_ Hs]];
        apply forallb_stale in Hs; congruence.
    + apply forallb_stale in Ef.
      split; (split; [intros H; inversion H; repeat split; trivial;
                      discriminate
                     | intros [-> _]; reflexivity]).
Qed.

(** X8: when [fitted_curve] returns, either it made no solver call and the
    fit is None, or it called [curve_fit] exactly once, on at least three
    points whose DevYears are strictly ascending and at most 10, with as
    many y values, p0 = [100, 2, 0.5] and maxfev = 5000, and it returns what
    that call gave (None when the solver raised). *)
Theorem fitted_curve_solver_contract (popt : Type)
    (curve_fit : SolverCall -> option popt) (df_acph : list ACPHRow.t)
    (product : string) (selected_indices : list nat)
    (out : Traced (option popt)) :
  fitted_curve popt curve_fit df_acph product selected_indices = Return out ->
  (value out = None /\ solver_calls out = []) \/
  exists call,
    solver_calls out = [call] /\ value out = curve_fit call /\
    (3 <= List.length (x_data call))%nat /\
    List.length (y_data call) = List.length (x_data call) /\
    StronglySorted Z.lt (x_data call) /\
    Forall (fun x => x <= 10) (x_data call) /\
    p0 call = [100; 2; 1 # 2]%Q /\ maxfev call = 5000.
Proof. apply fitted_curve_contract. Qed.

Lemma fitted_curve_solver_contract_witness :
  exists out,
    fitted_curve unit (fun _ => None) sample_acph "Detached" [1%nat] =
      Return out /\
    exists call, solver_calls out = [call] /\ value out = None /\
                 x_data call = [0; 1; 2].
Proof.
  eexists. split; [reflexivity|].
  destruct (fitted_curve_solver_contract unit (fun _ => None) sample_acph
              "Detached" [1%nat] _ eq_refl) as [[_ H]|[call [Hc [Hv _]]]].
  - discriminate H.
  - exists call. split; [exact Hc|]. split; [exact Hv|].
    vm_compute in Hc. now inversion Hc.
Defined.

Lemma combine_fst {A B : Type} (l : list A) (l' : list B) :
  List.length l' = List.length l -> map fst (combine l l') = l.
Proof.
  revert l'. induction l as [|a l IH]; intros [|b l'] H;
    try discriminate; trivial.
  cbn [combine map fst]. f_equal. apply IH. now injection H.
Qed.

Lemma rows_labelled_mask (s : Status) (l : list ACPHRow.t) sts :
  List.length sts = List.length l ->
  rows_labelled s (combine l sts) =
  Polars.filter_mask l (map (fun st => status_eqb st s) sts).
Proof.
  unfold rows_labelled.
  revert sts. induction l as [|a l IH]; intros [|b sts] H;
    try discriminate; trivial.
  cbn [combine filter map snd Polars.filter_mask].
  injection H as H. specialize (IH sts H).
  destruct (status_eqb b s); cbn [map fst]; now rewrite IH.
Qed.

Lemma rows_labelled_positions (s : Status) (view : list ACPHRow.t) idx :
  rows_labelled s
    (combine view
       (map (fun j => if existsb (Nat.eqb j) idx then Excluded else Included)
          (seq 0 (List.length view)))) =
  rows_at_positions view
    (filter (fun j => status_eqb
                        (if existsb (Nat.eqb j) idx
                         then Excluded else Included) s)
       (seq 0 (List.length view))).
Proof.
  rewrite rows_labelled_mask by now rewrite length_map, length_seq.
  now rewrite map_map, rows_at_filter.
Qed.

(** X9: when [main_plot] returns, its points are the rows of the product
    view in view order; the rows labelled Excluded are exactly the rows
    whose pairs [save] persists, the rows labelled Included are the rows at
    the positions outside the selection, and the curve drawn is the result
    of [fitted_curve] on the same inputs. *)
Theorem main_plot_labels (popt : Type)
    (curve_fit : SolverCall -> option popt) (df_acph : list ACPHRow.t)
    (product : string) (selected_indices : list nat)
    (fig : Traced (Figure popt)) :
  main_plot popt curve_fit df_acph product selected_indices = Return fig ->
  let view := filtered_data df_acph product in
  map fst (points (value fig)) = view /\
  rows_labelled Excluded (points (value fig)) =
    excluded_rows view selected_indices /\
  rows_labelled Included (points (value fig)) =
    rows_at_positions view
      (included_positions (List.length view) selected_indices) /\
  fitted_curve popt curve_fit df_acph product selected_indices =
    Return {| value := curve (value fig);
              solver_calls := solver_calls fig |}.
Proof.
  rewrite main_plot_spec, fitted_curve_spec. cbn zeta.
  generalize (filtered_data df_acph product). intros view.
  destruct (is_empty view) eqn:Ee.
  - destruct view; [|discriminate]. intros H. injection H as <-.
    repeat split.
  - destruct (forallb _ selected_indices); [|discriminate].
    intros H. injection H as <-. unfold value, solver_calls, points, curve.
    split; [apply combine_fst; now rewrite length_map, length_seq|].
    rewrite !rows_labelled_positions.
    split; [|split].
    + unfold excluded_rows, valid_positions. f_equal.
      apply filter_ext. intros j.
      now destruct (existsb (Nat.eqb j) selected_indices).
    + unfold included_positions. f_equal.
      apply filter_ext. intros j.
      now destruct (existsb (Nat.eqb j) selected_indices).
    + now destruct (fit_pattern _ _ _).
Qed.

Lemma main_plot_labels_witness :
  exists fig,
    main_plot unit (fun _ => Some tt) sample_acph "Flat" [1%nat] =
      Return fig /\
    rows_labelled Excluded (points (value fig)) =
      [sample_row "Flat" 2020 1 70 10] /\
    rows_labelled Included (points (value fig)) =
      [sample_row "Flat" 2020 0 50 10].
Proof.
  eexists. split; [reflexivity|].
  destruct (main_plot_labels unit (fun _ => Some tt) sample_acph "Flat"
              [1%nat] _ eq_refl) as [_ [He [Hi _]]].
  split; [exact He | exact Hi].
Defined.

Lemma existsb_same_elements (idx idx' : list nat) j :
  (forall i, In i idx <-> In i idx') ->
  existsb (Nat.eqb j) idx = existsb (Nat.eqb j) idx'.
Proof.
  intros Hsame.
  destruct (existsb (Nat.eqb j) idx) eqn:E, (existsb (Nat.eqb j) idx') eqn:E';
    trivial.
  - apply existsb_exists in E. destruct E as [i [Hi Hj]].
    assert (existsb (Nat.eqb j) idx' = true)
      by (apply existsb_exists; exists i; split; trivial; now apply Hsame).
    congruence.
  - apply existsb_exists in E'. destruct E' as [i [Hi Hj]].
    assert (existsb (Nat.eqb j) idx = true)
      by (apply existsb_exists; exists i; split; trivial; now apply Hsame).
    congruence.
Qed.

Lemma forallb_same_elements (f : nat -> bool) (idx idx' : list nat) :
  (forall i, In i idx <-> In i idx') -> forallb f idx = forallb f idx'.
Proof.
  intros Hsame.
  destruct (forallb f idx) eqn:E, (forallb f idx') eqn:E'; trivial.
  - rewrite forallb_forall in E.
    assert (forallb f idx' = true)
      by (apply forallb_forall; intros i Hi; now apply E, Hsame).
    congruence.
  - rewrite forallb_forall in E'.
    assert (forallb f idx = true)
      by (apply forallb_forall; intros i Hi; now apply E', Hsame).
    congruence.
Qed.

Lemma excluded_rows_same_elements view idx idx' :
  (forall i, In i idx <-> In i idx') ->
  excluded_rows view idx = excluded_rows view idx'.
Proof.
  intros Hsame. unfold excluded_rows, valid_positions. f_equal.
  apply filter_ext. intros j. now apply existsb_same_elements.
Qed.

Lemma included_positions_same_elements n idx idx' :
  (forall i, In i idx <-> In i idx') ->
  included_positions n idx = included_positions n idx'.
Proof.
  intros Hsame. unfold included_positions.
  apply filter_ext. intros j. f_equal. now apply existsb_same_elements.
Qed.

(** X10: the fit, the plot and the saved document depend on the selection
    only as a set: two selections with the same members, in any order and
    with any repetitions, give the same results. *)
Theorem selection_as_set (popt : Type)
    (curve_fit : SolverCall -> option popt) (file : option json)
    (df_acph : list ACPHRow.t) (product : string) (idx idx' : list nat) :
  (forall i, In i idx <-> In i idx') ->
  fitted_curve popt curve_fit df_acph product idx =
    fitted_curve popt curve_fit df_acph product idx' /\
  main_plot popt curve_fit df_acph product idx =
    main_plot popt curve_fit df_acph product idx' /\
  save file df_acph product idx = save file df_acph product idx'.
Proof.
  intros Hsame. split; [|split].
  - rewrite !fitted_curve_spec. cbn zeta.
    rewrite (forallb_same_elements _ idx idx' Hsame).
    now rewrite (included_positions_same_elements _ idx idx' Hsame).
  - rewrite !main_plot_spec. cbn zeta.
    rewrite (forallb_same_elements _ idx idx' Hsame).
    rewrite (included_positions_same_elements _ idx idx' Hsame).
    destruct (is_empty _); trivial. destruct (forallb _ idx'); trivial.
    do 4 f_equal. apply map_ext. intros j.
    now rewrite (existsb_same_elements idx idx' j Hsame).
  - unfold save. rewrite !excluded_points_rows.
    now rewrite (excluded_rows_same_elements _ idx idx' Hsame).
Qed.

Lemma selection_as_set_witness :
  (forall i, In i [2%nat; 0%nat; 2%nat] <-> In i [0%nat; 2%nat]) /\
  save None sample_acph "Detached" [2%nat; 0%nat; 2%nat] =
    save None sample_acph "Detached" [0%nat; 2%nat].
Proof.
  assert (H : forall i, In i [2%nat; 0%nat; 2%nat] <-> In i [0%nat; 2%nat])
    by (intros i; simpl; tauto).
  split; [exact H|].
  exact (proj2 (proj2 (selection_as_set unit (fun _ => None) None sample_acph
                         "Detached" _ _ H))).
Defined.

(** X11: when every row of the product view is selected (and nothing
    else), the clean subset is empty and [fitted_curve] returns None without
    calling the solver. *)
Theorem fitted_curve_all_excluded (popt : Type)
    (curve_fit : SolverCall -> option popt) (df_acph : list ACPHRow.t)
    (product : string) (selected_indices : list nat) :
  (forall i, In i selected_indices <->
             (i < List.length (filtered_data df_acph product))%nat) ->
  df_clean (filtered_data df_acph product) selected_indices = Return [] /\
  fitted_curve popt curve_fit df_acph product selected_indices =
    Return {| value := None; solver_calls := [] |}.
Proof.
  intros Hall.
  assert (Hf : forallb
                 (fun i => (i <? List.length (filtered_data df_acph product))%nat)
                 selected_indices = true).
  { apply forallb_forall. intros i Hi. now apply Nat.ltb_lt, Hall. }
  assert (Hnil : included_positions
                   (List.length (filtered_data df_acph product))
                   selected_indices = []).
  { unfold included_positions.
    destruct (filter _ _) as [|j t] eqn:E; trivial.
    assert (Hj : In j (filter
                         (fun i => negb (existsb (Nat.eqb i) selected_indices))
                         (seq 0 (List.length (filtered_data df_acph product)))))
      by (rewrite E; now left).
    apply filter_In in Hj. destruct Hj as [Hj Hn]. apply in_seq in Hj.
    assert (He : existsb (Nat.eqb j) selected_indices = true).
    { apply existsb_exists. exists j. split; [apply Hall; lia|].
      apply Nat.eqb_refl. }
    rewrite He in Hn. discriminate. }
  split.
  - now rewrite df_clean_spec, Hf, Hnil.
  - rewrite fitted_curve_spec. cbn zeta.
    destruct (is_empty _); trivial. now rewrite Hf, Hnil.
Qed.

Lemma fitted_curve_all_excluded_witness :
  (forall i, In i [1%nat; 0%nat] <->
             (i < List.length (filtered_data sample_acph "Flat"))%nat) /\
  df_clean (filtered_data sample_acph "Flat") [1%nat; 0%nat] = Return [] /\
  fitted_curve unit (fun _ => Some tt) sample_acph "Flat" [1%nat; 0%nat] =
    Return {| value := None; solver_calls := [] |}.
Proof.
  assert (H : forall i, In i [1%nat; 0%nat] <->
                        (i < List.length (filtered_data sample_acph "Flat"))%nat).
  { intros i. change (List.length (filtered_data sample_acph "Flat")) with 2%nat.
    simpl. lia. }
  split; [exact H|].
  exact (fitted_curve_all_excluded unit (fun _ => Some tt) sample_acph "Flat"
           _ H).
Defined.

(** X12: [params_table] raises exactly what [fitted_curve] raises, and
    returns whenever [fitted_curve] does.  When it returns, it shows the
    three parameter rows with the solver's values only if the solver was
    called, once, on at least three points and converged; in every other
    case (no data, fewer than three pattern points, solver failure) it shows
    the single status "Fit Failed". *)
Theorem params_table_shows (popt : Type)
    (curve_fit : SolverCall -> option popt) (df_acph : list ACPHRow.t)
    (product : string) (selected_indices : list nat) :
  (forall e,
      params_table popt curve_fit df_acph product selected_indices = Raise e
      <->
      fitted_curve popt curve_fit df_acph product selected_indices = Raise e)
  /\
  (forall fit,
      fitted_curve popt curve_fit df_acph product selected_indices =
        Return fit ->
      exists t,
        params_table popt curve_fit df_acph product selected_indices =
          Return t /\
        solver_calls t = solver_calls fit) /\
  (forall t,
      params_table popt curve_fit df_acph product selected_indices = Return t
      ->
      (value t = StatusTable ["Fit Failed"] /\
       (solver_calls t = [] \/
        exists call, solver_calls t = [call] /\ curve_fit call = None)) \/
      (exists call p,
          solver_calls t = [call] /\ curve_fit call = Some p /\
          (3 <= List.length (x_data call))%nat /\
          value t =
            ValueTable ["A (Scale)"; "B (Shape)"; "C (Decay)"] p)).
Proof.
  unfold params_table.
  destruct (fitted_curve popt curve_fit df_acph product selected_indices)
    as [fit|e0] eqn:E; cbn [bind].
  - split; [intros e; split; discriminate|].
    split.
    + intros fit' H. injection H as <-. eexists. split; reflexivity.
    + intros t H. injection H as <-. cbn [value solver_calls].
      destruct (fitted_curve_contract popt curve_fit _ _ _ _ E)
        as [[Hv Hc]|[call [Hc [Hv [Hl _]]]]].
      * left. rewrite Hv. split; [reflexivity | now left].
      * rewrite Hv. destruct (curve_fit call) as [p|] eqn:Ec.
        -- right. exists call, p. repeat split; trivial.
        -- left. split; [reflexivity|]. right. now exists call.
  - split; [intros e; split; intros H; injection H as ->; reflexivity|].
    split; discriminate.
Qed.

(** ** The grid *)

Lemma exclusion_grid_map df_acph product :
  exclusion_grid df_acph product =
  map (fun r => (ACPHRow.CohortYear r, ACPHRow.DevYear r, ACPHRow.ACPH r))
    (filtered_data df_acph product).
Proof.
  unfold exclusion_grid. now destruct (filtered_data df_acph product).
Qed.

(** X13: the pairs that [save] persists are exactly the CohortYear and
    DevYear shown in the grid rows at the selected positions; a selected
    position without a grid row contributes nothing. *)
Theorem save_persists_grid_rows (df_acph : list ACPHRow.t) (product : string)
    (selected_indices : list nat) (pt : json) :
  In pt (excluded_points (filtered_data df_acph product) selected_indices) <->
  exists i cohort dev acph,
    In i selected_indices /\
    nth_error (exclusion_grid df_acph product) i = Some (cohort, dev, acph) /\
    pt = JObj [("CohortYear", JInt cohort); ("DevYear", JInt dev)].
Proof.
  rewrite excluded_points_rows, exclusion_grid_map, in_map_iff. split.
  - intros [r [<- Hr]]. apply excluded_rows_In in Hr.
    destruct Hr as [i [Hi [_ Hn]]].
    exists i, (ACPHRow.CohortYear r), (ACPHRow.DevYear r), (ACPHRow.ACPH r).
    split; trivial. split; [|reflexivity].
    now rewrite nth_error_map, Hn.
  - intros [i [c [d [a [Hi [Hn ->]]]]]]. rewrite nth_error_map in Hn.
    destruct (nth_error (filtered_data df_acph product) i) as [r|] eqn:E;
      [|discriminate].
    injection Hn as <- <- <-. exists r. split; [reflexivity|].
    apply excluded_rows_In. exists i. repeat split; trivial.
    apply nth_error_Some. congruence.
Qed.

(** ** More on saving *)

Section DictMore.
Context {V : Type}.

Lemma set_set k (v v' : V) d :
  Dict.set k v (Dict.set k v' d) = Dict.set k v d.
Proof.
  induction d as [|[k0 v0] d IH]; cbn [Dict.set].
  - now rewrite String.eqb_refl.
  - destruct (String.eqb k k0) eqn:E; cbn [Dict.set]; rewrite E; congruence.
Qed.

Lemma set_keys k (v : V) d :
  Dict.mem k d = true -> map fst (Dict.set k v d) = map fst d.
Proof.
  unfold Dict.mem. induction d as [|[k0 v0] d IH]; cbn [Dict.get Dict.set].
  - discriminate.
  - destruct (String.eqb k k0); cbn [map fst]; [reflexivity|].
    intros H. now rewrite IH.
Qed.
End DictMore.

Lemma save_not_ok file df_acph prod idx :
  persisted_ok file prod = false ->
  save file df_acph prod idx = Raise TypeError.
Proof.
  intros Hok. unfold save.
  destruct file as [j|]; cbn [persisted_ok] in Hok; [|discriminate].
  destruct j as [| | | | |d]; trivial. cbn [as_dict bind].
  rewrite ensure_dict_spec.
  destruct (Dict.get "products" d) as [ps|]; [|discriminate].
  destruct ps as [| | | | |products]; trivial. cbn [bind].
  rewrite ensure_dict_spec.
  destruct (Dict.get prod products) as [e|]; [|discriminate].
  destruct e; trivial; discriminate.
Qed.

Lemma save_returns_ok file df_acph prod idx out :
  save file df_acph prod idx = Return out -> persisted_ok file prod = true.
Proof.
  intros H. destruct (persisted_ok file prod) eqn:E; trivial.
  rewrite (save_not_ok _ _ _ _ E) in H. discriminate.
Qed.

(** X14: [save] raises exactly when the persisted document is not of the
    shape it writes (the document, its "products" or the product's entry is
    not an object), and then the exception is a TypeError; nothing is
    written in that case. *)
Theorem save_raises_iff_malformed (file : option json)
    (df_acph : list ACPHRow.t) (prod : string) (selected_indices : list nat)
    (e : exn) :
  save file df_acph prod selected_indices = Raise e <->
  e = TypeError /\ persisted_ok file prod = false.
Proof.
  split.
  - intros H. destruct (persisted_ok file prod) eqn:E.
    + destruct (save_result file df_acph prod selected_indices E)
        as [d [ps [en [Hs _]]]]. congruence.
    + rewrite (save_not_ok _ _ _ _ E) in H. now inversion H.
  - intros [-> E]. now apply save_not_ok.
Qed.

(** X15: saving is idempotent: saving again, with the same view and
    selection, over the document just written gives the same document and
    the same notification. *)
Theorem save_idempotent (file : option json) (df_acph : list ACPHRow.t)
    (prod : string) (selected_indices : list nat) (data : json)
    (note : Notification) :
  save file df_acph prod selected_indices = Return (data, note) ->
  save (Some data) df_acph prod selected_indices = Return (data, note).
Proof.
  intros H. pose proof (save_returns_ok _ _ _ _ _ H) as Hok.
  destruct (save_result file df_acph prod selected_indices Hok)
    as [d [ps [en [Hs _]]]].
  rewrite Hs in H. injection H as <- <-.
  unfold save. cbn [as_dict bind].
  rewrite ensure_dict_spec, get_set_same. cbn [bind].
  rewrite ensure_dict_spec, get_set_same. cbn [bind].
  now rewrite !set_set.
Qed.

Lemma save_idempotent_witness :
  exists data note,
    save (Some sample_file) sample_acph "Detached" [0%nat; 1%nat] =
      Return (data, note) /\
    save (Some data) sample_acph "Detached" [0%nat; 1%nat] =
      Return (data, note).
Proof.
  do 2 eexists. split; [reflexivity|].
  exact (save_idempotent (Some sample_file) sample_acph "Detached"
           [0%nat; 1%nat] _ _ eq_refl).
Defined.

(** X16: [save] keeps the rest of the document: every top-level key other
    than "products" keeps its value, the top-level keys keep their order
    when "products" was already there, and inside the product's own entry
    every key other than "excluded_points" keeps its value. *)
Theorem save_keeps_other_content (d0 : list (string * json))
    (df_acph : list ACPHRow.t) (prod : string) (selected_indices : list nat)
    (data : json) (note : Notification) :
  save (Some (JObj d0)) df_acph prod selected_indices = Return (data, note) ->
  exists d,
    data = JObj d /\
    (forall k, k <> "products" -> Dict.get k d = Dict.get k d0) /\
    (Dict.mem "products" d0 = true -> map fst d = map fst d0) /\
    (forall entry,
        product_entry (Some (JObj d0)) prod = Some (JObj entry) ->
        exists entry',
          product_entry (Some data) prod = Some (JObj entry') /\
          forall k, k <> "excluded_points" ->
                    Dict.get k entry' = Dict.get k entry).
Proof.
  unfold save. cbn [as_dict bind]. rewrite ensure_dict_spec.
  unfold Dict.mem.
  destruct (Dict.get "products" d0) as [ps|] eqn:Ep.
  - destruct ps as [| | | | |products]; try discriminate. cbn [bind].
    rewrite ensure_dict_spec.
    destruct (Dict.get prod products) as [en|] eqn:Ee.
    + destruct en as [| | | | |entry0]; try discriminate. cbn [bind].
      intros H. injection H as <- <-. eexists. split; [reflexivity|].
      split; [intros k Hk; apply get_set_other; congruence|].
      split; [intros _; apply set_keys; unfold Dict.mem; now rewrite Ep|].
      intros entry He. cbn [product_entry] in He. rewrite Ep, Ee in He.
      injection He as <-.
      eexists. split.
      * rewrite product_entry_written. now rewrite String.eqb_refl.
      * intros k Hk. apply get_set_other. congruence.
    + cbn [bind]. intros H. injection H as <- <-.
      eexists. split; [reflexivity|].
      split; [intros k Hk; apply get_set_other; congruence|].
      split; [intros _; apply set_keys; unfold Dict.mem; now rewrite Ep|].
      intros entry He. cbn [product_entry] in He. rewrite Ep, Ee in He.
      discriminate.
  - cbn [bind]. rewrite ensure_dict_spec. cbn [Dict.get bind].
    intros H. injection H as <- <-.
    eexists. split; [reflexivity|].
    split; [intros k Hk; rewrite !get_set_other; congruence|].
    split; [discriminate|].
    intros entry He. cbn [product_entry] in He. rewrite Ep in He.
    discriminate.
Qed.

Lemma save_keeps_other_content_witness :
  exists data note d,
    save (Some (JObj [("version", JInt 1);
                      ("products", JObj [("Flat", JObj [("note", JStr "x")])])]))
      sample_acph "Flat" [0%nat] = Return (data, note) /\
    data = JObj d /\
    Dict.get "version" d = Some (JInt 1) /\
    map fst d = ["version"; "products"].
Proof.
  do 2 eexists.
  destruct (save_keeps_other_content
              [("version", JInt 1);
               ("products", JObj [("Flat", JObj [("note", JStr "x")])])]
              sample_acph "Flat" [0%nat] _ _ eq_refl)
    as [d [Hd [Hk [Hm _]]]].
  exists d. split; [reflexivity|]. split; [exact Hd|].
  split; [apply Hk; discriminate | apply Hm; reflexivity].
Defined.

Lemma persisted_ok_entry file q :
  persisted_ok file q = true ->
  match product_entry file q with
  | None | Some (JObj _) => True
  | Some _ => False
  end.
Proof.
  destruct file as [j|]; cbn [persisted_ok product_entry]; trivial.
  destruct j as [| | | | |d]; trivial.
  destruct (Dict.get "products" d) as [ps|]; trivial.
  destruct ps as [| | | | |products]; trivial.
  destruct (Dict.get q products) as [e|]; trivial.
  destruct e; trivial; discriminate.
Qed.

Lemma persisted_ok_written d products q :
  persisted_ok (Some (JObj (Dict.set "products" (JObj products) d))) q =
  match Dict.get q products with
  | None | Some (JObj _) => true
  | Some _ => false
  end.
Proof. cbn [persisted_ok]. now rewrite get_set_same. Qed.

(** X17: two saves in a row for different products keep both lists: after
    saving the selection of P and then the selection of Q over the result,
    the document holds P's points and Q's points. *)
Theorem save_two_products (file : option json) (df_acph : list ACPHRow.t)
    (P Q : string) (idxP idxQ : list nat) :
  P <> Q ->
  persisted_ok file P = true ->
  persisted_ok file Q = true ->
  exists data1 note1 data2 note2,
    save file df_acph P idxP = Return (data1, note1) /\
    save (Some data1) df_acph Q idxQ = Return (data2, note2) /\
    saved_points (Some data2) P =
      Some (JArr (excluded_points (filtered_data df_acph P) idxP)) /\
    saved_points (Some data2) Q =
      Some (JArr (excluded_points (filtered_data df_acph Q) idxQ)).
Proof.
  intros Hne HP HQ.
  destruct (save_result file df_acph P idxP HP)
    as [d [ps [en [Hs1 Hother1]]]].
  assert (HQ1 : persisted_ok
                  (Some (JObj (Dict.set "products"
                                 (JObj (Dict.set P
                                          (JObj (Dict.set "excluded_points"
                                                   (JArr (excluded_points
                                                            (filtered_data
                                                               df_acph P)
                                                            idxP)) en))
                                          ps)) d))) Q = true).
  { rewrite persisted_ok_written, get_set_other by congruence.
    rewrite (Hother1 Q) by congruence.
    pose proof (persisted_ok_entry file Q HQ) as H.
    destruct (product_entry file Q) as [[]|]; trivial; contradiction. }
  destruct (save_result _ df_acph Q idxQ HQ1)
    as [d2 [ps2 [en2 [Hs2 Hother2]]]].
  do 4 eexists. split; [exact Hs1|]. split; [exact Hs2|].
  split; [|apply saved_points_written].
  unfold saved_points. rewrite product_entry_written.
  destruct (String.eqb P Q) eqn:E; [apply String.eqb_eq in E; congruence|].
  rewrite (Hother2 P) by congruence.
  rewrite product_entry_written, String.eqb_refl.
  apply get_set_same.
Qed.

Lemma save_two_products_witness :
  "Flat" <> "Detached" /\
  exists data2,
    saved_points (Some data2) "Flat" =
      Some (JArr [JObj [("CohortYear", JInt 2020); ("DevYear", JInt 0)]]) /\
    saved_points (Some data2) "Detached" =
      Some (JArr [JObj [("CohortYear", JInt 2021); ("DevYear", JInt 2)]]).
Proof.
  assert (Hne : "Flat" <> "Detached") by discriminate.
  split; [exact Hne|].
  destruct (save_two_products None sample_acph "Flat" "Detached"
              [0%nat] [5%nat] Hne eq_refl eq_refl)
    as [data1 [note1 [data2 [note2 [_ [_ [HP HQ]]]]]]].
  exists data2. split; [exact HP | exact HQ].
Defined.

(** ** The curve above its floor *)

Section CurveMore.
Local Open Scope R_scope.

(** X18: from t = 0.1 on, the curve is A * t^B * exp(-C * t), for all real
    A, B, C. *)
Theorem actuarial_curve_above_floor (t A B C : R) :
  1 / 10 <= t ->
  actuarial_curve t A B C = Some (A * Rpower t B * exp (- C * t)).
Proof.
  intros Ht. rewrite actuarial_curve_defined.
  now rewrite (Rmax_left t (1 / 10) Ht).
Qed.

Lemma actuarial_curve_above_floor_witness :
  1 / 10 <= 2 /\
  actuarial_curve 2 100 2 (1 / 2) =
  Some (100 * Rpower 2 2 * exp (- (1 / 2) * 2)).
Proof.
  assert (H : 1 / 10 <= 2) by lra.
  split; [exact H | exact (actuarial_curve_above_floor 2 100 2 (1 / 2) H)].
Defined.
End CurveMore.
